(** * e4s-cl: library-resolution core, container driver and compiler detection

    Shallow embedding of the Python sources of e4s-cl:
    - [e4s_cl/cf/compiler.py]            (compiler vendor detection)
    - [e4s_cl/cf/containers/__init__.py] (bound files, LD_* lists, get_data)
    - [e4s_cl/cf/containers/shifter.py]  (Shifter driver)
    - [packages/e4s_cl/cli/commands/analyze.py] (guest introspection command)
    - [packages/e4s_cl/cf/wi4mpi.py]     (WI4MPI configuration and binding)

    Python exceptions are modelled by the [result] type below; Python [str]
    values that come out of a decoder are lists of code points ([list Z]);
    paths are [pathlib.Path] values, i.e. the tuple of their [parts]. *)

From Stdlib Require Import String Ascii List ZArith Bool Lia.
Import ListNotations.
Open Scope Z_scope.

(** ** Python exceptions and fallible results *)

Inductive exn : Type :=
  | PermissionError
  | FileNotFoundError
  | IsADirectoryError
  | ELFError
  | OSError (errno : Z)            (** any other [OSError], by errno *)
  | UnicodeDecodeError
  | ValueError
  | BackendNotAvailableError
  | AnalysisError (code : Z)
  | InternalError (msg : string)
  | RuntimeError
  | RecursionError
  | TypeError
  | AttributeError.

Inductive result (A : Type) : Type :=
  | Ok (a : A)
  | Err (e : exn).
Arguments Ok {A} a.
Arguments Err {A} e.

Definition bind {A B} (r : result A) (k : A -> result B) : result B :=
  match r with Ok a => k a | Err e => Err e end.
Notation "x <- r ;; k" := (bind r (fun x => k))
  (at level 61, r at next level, right associativity).

(** ** Python [str] as code points *)

Definition pystr := list Z.

Definition lit (s : string) : pystr :=
  map (fun c => Z.of_nat (nat_of_ascii c)) (list_ascii_of_string s).

Fixpoint is_prefix (p s : pystr) : bool :=
  match p, s with
  | [], _ => true
  | x :: p', y :: s' => Z.eqb x y && is_prefix p' s'
  | _ :: _, [] => false
  end.

(** Python's [needle in hay] on strings. *)
Fixpoint contains (needle hay : pystr) : bool :=
  is_prefix needle hay ||
  match hay with [] => false | _ :: t => contains needle t end.

(** [sep.join(xs)] *)
Fixpoint join (sep : pystr) (xs : list pystr) : pystr :=
  match xs with
  | [] => []
  | [x] => x
  | x :: xs' => x ++ sep ++ join sep xs'
  end.

(** ** [bytes.decode()]: strict UTF-8, as CPython decodes it *)

Definition cont_byte (b : Z) : bool := (128 <=? b) && (b <? 192).

Fixpoint utf8_decode (bs : list Z) : option pystr :=
  match bs with
  | [] => Some []
  | b0 :: r0 =>
      if b0 <? 128 then
        option_map (cons b0) (utf8_decode r0)
      else if (194 <=? b0) && (b0 <? 224) then
        match r0 with
        | b1 :: r1 =>
            if cont_byte b1
            then option_map (cons ((b0 - 192) * 64 + (b1 - 128))) (utf8_decode r1)
            else None
        | [] => None
        end
      else if (224 <=? b0) && (b0 <? 240) then
        match r0 with
        | b1 :: b2 :: r2 =>
            let cp := (b0 - 224) * 4096 + (b1 - 128) * 64 + (b2 - 128) in
            if cont_byte b1 && cont_byte b2 && (2048 <=? cp)
               && negb ((55296 <=? cp) && (cp <=? 57343))
            then option_map (cons cp) (utf8_decode r2)
            else None
        | _ => None
        end
      else if (240 <=? b0) && (b0 <? 245) then
        match r0 with
        | b1 :: b2 :: b3 :: r3 =>
            let cp := (b0 - 240) * 262144 + (b1 - 128) * 4096
                      + (b2 - 128) * 64 + (b3 - 128) in
            if cont_byte b1 && cont_byte b2 && cont_byte b3
               && (65536 <=? cp) && (cp <=? 1114111)
            then option_map (cons cp) (utf8_decode r3)
            else None
        | _ => None
        end
      else None
  end.

(** ** compiler.py *)
Module Compiler.

(** One ELF section as pyelftools exposes it: [x.name] and [x.data()]. *)
Record section := mk_section { sec_name : string; sec_data : list Z }.

(** [elf.iter_sections()]: a lazy stream of sections that may raise
    (pyelftools raises [ELFError] on a malformed section table). *)
Inductive section_stream : Type :=
  | SEnd
  | SRaise (e : exn)
  | SCons (s : section) (rest : section_stream).

(** [open(elf_file, 'rb')] followed by [ELFFile(data)]: either the
    section stream of the file or the exception raised by either call. *)
Inductive elf_file : Type :=
  | Opened (st : section_stream)
  | OpenRaised (e : exn).

(** [map(lambda x: x.data().decode(), filter(... == '.comment', ...))],
    materialised in order by [' - '.join]: the first exception wins. *)
Fixpoint comment_parts (st : section_stream) : result (list pystr) :=
  match st with
  | SEnd => Ok []
  | SRaise e => Err e
  | SCons s rest =>
      if String.eqb (sec_name s) ".comment" then
        match utf8_decode (sec_data s) with
        | Some d => ds <- comment_parts rest ;; Ok (d :: ds)
        | None => Err UnicodeDecodeError
        end
      else comment_parts rest
  end.

(** The body of the [try] block of [_get_comment]. *)
Definition read_comment (f : elf_file) : result pystr :=
  match f with
  | OpenRaised e => Err e
  | Opened st => ds <- comment_parts st ;; Ok (join (lit " - ") ds)
  end.

(** [except (PermissionError, FileNotFoundError, IsADirectoryError, ELFError)] *)
Definition caught (e : exn) : bool :=
  match e with
  | PermissionError | FileNotFoundError | IsADirectoryError | ELFError => true
  | _ => false
  end.

Definition _get_comment (f : elf_file) : result pystr :=
  match read_comment f with
  | Ok c => Ok c
  | Err e => if caught e then Ok [] else Err e
  end.

Definition _gnu_check (s : pystr) : bool := contains (lit "GCC") s.
Definition _llvm_check (s : pystr) : bool := contains (lit "clang") s.
Definition _intel_check (_ : pystr) : bool := false.
Definition _amd_check (s : pystr) : bool := contains (lit "AMD") s.
Definition _pgi_check (_ : pystr) : bool := false.
Definition _armclang_check (_ : pystr) : bool := false.
Definition _fujitsu_check (_ : pystr) : bool := false.

(** class [CompilerVendor] *)
Definition GNU : Z := 0.
Definition LLVM : Z := 1.
Definition INTEL : Z := 2.
Definition AMD : Z := 3.
Definition PGI : Z := 4.
Definition ARMCLANG : Z := 5.
Definition FUJITSU : Z := 6.

Definition checks : list (Z * (pystr -> bool)) :=
  [(GNU, _gnu_check); (LLVM, _llvm_check); (INTEL, _intel_check);
   (AMD, _amd_check); (PGI, _pgi_check); (ARMCLANG, _armclang_check);
   (FUJITSU, _fujitsu_check)].

Definition precendence : list Z := [AMD; LLVM; GNU].

(** [dict.get(key)] on an integer-keyed dict. *)
Fixpoint dict_get {V} (d : list (Z * V)) (k : Z) : option V :=
  match d with
  | [] => None
  | (k', v) :: d' => if Z.eqb k k' then Some v else dict_get d' k
  end.

(** The [for vendor in CompilerVendor.precendence] loop. *)
Fixpoint first_vendor (vs : list Z) (comment : pystr) : option Z :=
  match vs with
  | [] => None
  | vendor :: vs' =>
      match dict_get checks vendor with
      | Some check => if check comment then Some vendor else first_vendor vs' comment
      | None => first_vendor vs' comment
      end
  end.

Definition compiler_vendor (f : elf_file) : result Z :=
  comment <- _get_comment f ;;
  match first_vendor precendence comment with
  | Some vendor => Ok vendor
  | None => Ok GNU
  end.

End Compiler.

(** ** pathlib paths *)
Module Paths.
Local Open Scope string_scope.

(** A [pathlib.PurePosixPath] is determined by its [parts]: the root ["/"]
    (or ["//"]) first when the path is absolute, then the names; pathlib
    never keeps empty names or ["."] in [parts]. *)
Definition path := list string.

Definition path_eqb (p q : path) : bool :=
  if list_eq_dec string_dec p q then true else false.

Fixpoint split_slash_aux (cur : list ascii) (cs : list ascii) : list string :=
  match cs with
  | [] => [string_of_list_ascii (rev cur)]
  | c :: cs' =>
      if Ascii.eqb c "/"%char
      then string_of_list_ascii (rev cur) :: split_slash_aux [] cs'
      else split_slash_aux (c :: cur) cs'
  end.

(** [s.split('/')] *)
Definition split_slash (s : string) : list string :=
  split_slash_aux [] (list_ascii_of_string s).

(** [Path(s)] for a string [s]: two leading slashes (exactly) are kept as
    the root ["//"], any other number of leading slashes gives ["/"]. *)
Definition parse_path (s : string) : path :=
  let names := filter (fun c => negb (String.eqb c EmptyString || String.eqb c ".")) (split_slash s) in
  if String.prefix "//" s && negb (String.prefix "///" s) then "//" :: names
  else if String.prefix "/" s then "/" :: names
  else names.

(** [p.as_posix()] (also [str(p)]) *)
Definition as_posix (p : path) : string :=
  match p with
  | [] => "."
  | r :: names =>
      if String.eqb r "/" || String.eqb r "//" then r ++ String.concat "/" names
      else String.concat "/" p
  end.

(** An argument typed [Union[Path, str]]: a [str] is falsy when empty,
    a [Path] is always truthy. *)
Inductive pathlike : Type :=
  | PStr (s : string)
  | PPath (p : path).

Definition truthy (a : pathlike) : bool :=
  match a with PStr s => negb (String.eqb s EmptyString) | PPath _ => true end.

Definition to_path (a : pathlike) : path :=
  match a with PStr s => parse_path s | PPath p => p end.

Definition is_absolute (p : path) : bool :=
  match p with r :: _ => String.eqb r "/" || String.eqb r "//" | [] => false end.

(** *** [Path.resolve()]

    Non-strict, as [pathlib._PosixFlavour.resolve] computes it up to
    Python 3.9.  The host is observed through [os.readlink]: [rl p] is the
    target of the symbolic link [p], [None] when [readlink] raises (the
    path is not a link, or does not exist), in which case the name is kept
    as it is. *)
Definition links := path -> option string.

(** The [seen] dict, from a link (its names after the root) to [None]
    while its target is being resolved, then to the result.  Assigning
    [seen[k]] is modelled by putting [(k, v)] in front, [seen_get] finding
    the latest assignment. *)
Definition seen_map := list (list string * option (list string)).

Fixpoint seen_get (seen : seen_map) (k : list string) : option (option (list string)) :=
  match seen with
  | [] => None
  | (k', v) :: seen' => if list_eq_dec string_dec k' k then Some v else seen_get seen' k
  end.

(** CPython stops recursion deeper than its recursion limit (1000 frames
    by default, some of which the callers use) with [RecursionError];
    [resolve_depth] is the nesting of [_resolve] calls left for link
    targets. *)
Definition resolve_depth : nat := 990.

(** The [for name in rest.split(sep)] loop of [_resolve(path, rest)]:
    [path] is the string built so far, kept as its names ([''] is [[]],
    ['/a/b'] is [["a"; "b"]]), and [".."] is [path.rpartition('/')[0]],
    i.e. [removelast].  [sub] is the nested call [_resolve(path, target)]
    on a link target, given by whether it starts with ['/'] and by its
    [split('/')]. *)
Fixpoint resolve_names
  (sub : seen_map -> list string -> bool -> list string -> result (list string * seen_map))
  (rl : links) (seen : seen_map) (path : list string) (names : list string)
  : result (list string * seen_map) :=
  match names with
  | [] => Ok (path, seen)
  | name :: names' =>
      if String.eqb name EmptyString || String.eqb name "." then resolve_names sub rl seen path names'
      else if String.eqb name ".." then resolve_names sub rl seen (removelast path) names'
      else
        let newpath := app path [name] in
        match seen_get seen newpath with
        | Some (Some p) => resolve_names sub rl seen p names'
        | Some None => Err RuntimeError          (** "Symlink loop from ..." *)
        | None =>
            match rl ("/" :: newpath) with
            | None => resolve_names sub rl seen newpath names'
            | Some target =>
                match sub ((newpath, None) :: seen) path (String.prefix "/" target)
                        (split_slash target) with
                | Ok (p, seen') => resolve_names sub rl ((newpath, Some p) :: seen') p names'
                | Err e => Err e
                end
            end
        end
  end.

(** [_resolve(path, rest)]: [if rest.startswith(sep): path = ''], then the
    loop. *)
Fixpoint _resolve (depth : nat) (rl : links) (seen : seen_map) (path : list string)
  (rest_abs : bool) (rest : list string) : result (list string * seen_map) :=
  resolve_names
    (fun seen path abs rest =>
       match depth with
       | O => Err RecursionError
       | S depth' => _resolve depth' rl seen path abs rest
       end)
    rl seen (if rest_abs then [] else path) rest.

(** [Path.resolve()]: [base] is [''] for an absolute path, [os.getcwd()]
    (here [cwd], which has no link on it) otherwise; [str(path)] starts
    with ['/'] exactly when [path] is absolute, and its [split('/')] gives
    the names after the root (the empty names it adds are skipped).  The
    result [_resolve(base, str(path)) or '/'] is already normalised. *)
Definition resolve (rl : links) (cwd : path) (p : path) : result path :=
  match _resolve resolve_depth rl [] (tl cwd) (is_absolute p)
          (if is_absolute p then tl p else p) with
  | Ok (names, _) => Ok ("/" :: names)
  | Err e => Err e
  end.

End Paths.

(** ** containers/__init__.py *)
Module Containers.
Import Paths.
Local Open Scope string_scope.

(** The host file system, as far as [Path.exists()] and [Path.is_dir()]
    observe it: [os.stat] (following links) finds a directory or another
    file, fails with an errno, or raises [ValueError] (a path with a NUL
    byte). *)
Inductive kind : Type := KDir | KFile.
Inductive stat_result : Type :=
  | Found (k : kind)
  | StatFailed (errno : Z)
  | StatValueError.
Definition fs := path -> stat_result.

Definition EPERM : Z := 1.
Definition ENOENT : Z := 2.
Definition EBADF : Z := 9.
Definition EACCES : Z := 13.
Definition ENOTDIR : Z := 20.
Definition EISDIR : Z := 21.
Definition ENAMETOOLONG : Z := 36.
Definition ELOOP : Z := 40.

(** [pathlib._ignore_error]: the errnos [_IGNORED_ERROS]. *)
Definition _ignore_error (errno : Z) : bool :=
  existsb (Z.eqb errno) [ENOENT; ENOTDIR; EBADF; ELOOP].

(** The [OSError] subclass raised for an errno. *)
Definition os_error (errno : Z) : exn :=
  if Z.eqb errno EACCES || Z.eqb errno EPERM then PermissionError
  else if Z.eqb errno ENOENT then FileNotFoundError
  else if Z.eqb errno EISDIR then IsADirectoryError
  else OSError errno.

(** [Path.exists()]: an ignored errno or a [ValueError] gives [False],
    any other [OSError] is re-raised. *)
Definition exists_ (h : fs) (p : path) : result bool :=
  match h p with
  | Found _ => Ok true
  | StatFailed errno => if _ignore_error errno then Ok false else Err (os_error errno)
  | StatValueError => Ok false
  end.

(** [Path.is_dir()], with the same error handling. *)
Definition is_dir (h : fs) (p : path) : result bool :=
  match h p with
  | Found KDir => Ok true
  | Found KFile => Ok false
  | StatFailed errno => if _ignore_error errno then Ok false else Err (os_error errno)
  | StatValueError => Ok false
  end.

(** class [FileOptions] *)
Definition READ_ONLY : Z := 0.
Definition READ_WRITE : Z := 1.

(** class [Container.BoundFile] *)
Record BoundFile := mk_bound_file { bf_path : path; bf_option : Z }.

(** [self.libc_v] holds [Version(s)]; the record keeps the string [s] the
    version object was built from ([e4s_cl.cf.version] is not part of the
    sources modelled here). *)
Record container := mk_container {
  image : string;
  bound_files : list (path * BoundFile);   (** [self.__bound_files], in dict order *)
  env : list (string * string);            (** [self.env], in dict order *)
  ld_preload : list string;
  ld_lib_path : list string;
  libc_v : pystr;
  temp_dir : option path                   (** Shifter: [self.temp_dir] *)
}.

(** [Container.__init__] *)
Definition init_container (img : string) : container :=
  mk_container img [] [] [] [] (lit "0.0.0") None.

(** [d.update({k: v})] on an insertion-ordered dict: an existing key keeps
    its position, a new key goes last. *)
Fixpoint dict_update {K V} (eqb : K -> K -> bool) (d : list (K * V)) (k : K) (v : V)
  : list (K * V) :=
  match d with
  | [] => [(k, v)]
  | (k', v') :: d' => if eqb k' k then (k', v) :: d' else (k', v') :: dict_update eqb d' k v
  end.

Definition set_bound_files (c : container) (b : list (path * BoundFile)) : container :=
  mk_container (image c) b (env c) (ld_preload c) (ld_lib_path c) (libc_v c) (temp_dir c).
Definition set_env (c : container) (e : list (string * string)) : container :=
  mk_container (image c) (bound_files c) e (ld_preload c) (ld_lib_path c) (libc_v c) (temp_dir c).
Definition set_ld_preload (c : container) (l : list string) : container :=
  mk_container (image c) (bound_files c) (env c) l (ld_lib_path c) (libc_v c) (temp_dir c).
Definition set_ld_lib_path (c : container) (l : list string) : container :=
  mk_container (image c) (bound_files c) (env c) (ld_preload c) l (libc_v c) (temp_dir c).
Definition set_libc_v (c : container) (v : pystr) : container :=
  mk_container (image c) (bound_files c) (env c) (ld_preload c) (ld_lib_path c) v (temp_dir c).
Definition set_temp_dir (c : container) (t : option path) : container :=
  mk_container (image c) (bound_files c) (env c) (ld_preload c) (ld_lib_path c) (libc_v c) t.

(** *** [bind_file] and its local [_unrelative] *)

(** [_contains(path1, path2)] *)
Definition _contains (path1 path2 : path) : bool :=
  let index := length path1 in
  path_eqb (firstn index path1) (firstn index path2).

(** [set.add] on a set kept as a duplicate-free list, in insertion order
    (one of the iteration orders CPython may produce). *)
Definition set_add (s : list path) (x : path) : list path :=
  if existsb (path_eqb x) s then s else s ++ [x].

(** [for i, part in enumerate(path.parts): if part == '..':
       visited.add(Path( *path.parts[:i]).resolve())]; a [resolve] that
    raises ends the loop. *)
Fixpoint add_dotdot_prefixes (rl : links) (cwd : path) (parts : path) (i : nat)
  (rest : list string) (visited : list path) : result (list path) :=
  match rest with
  | [] => Ok visited
  | part :: rest' =>
      if String.eqb part ".." then
        r <- resolve rl cwd (firstn i parts) ;;
        add_dotdot_prefixes rl cwd parts (S i) rest' (set_add visited r)
      else add_dotdot_prefixes rl cwd parts (S i) rest' visited
  end.

(** [_unrelative(path)]: [visited = {path, path.resolve()}], the prefixes
    before each [".."], then the elements no other element contains. *)
Definition _unrelative (rl : links) (cwd : path) (p : path) : result (list path) :=
  r <- resolve rl cwd p ;;
  visited <- add_dotdot_prefixes rl cwd p 0 p (set_add [p] r) ;;
  Ok (filter (fun element =>
                negb (existsb (fun q => negb (path_eqb q element) && _contains q element)
                              visited))
             visited).

(** [self.__bound_files.update({Path(_path): BoundFile(_path, option)})]
    for each [_path] of [_unrelative(path)]. *)
Definition bind_all (c : container) (ps : list path) (option : Z) : container :=
  set_bound_files c
    (fold_left (fun b q => dict_update path_eqb b q (mk_bound_file q option)) ps (bound_files c)).

(** [bind_file(path, dest, option)]; [rl] and [cwd] are the host as
    [resolve] sees it.  [Path(p.as_posix())] gives back [p] for the parts
    of a [Path], so the round trip through strings is left out.  An
    exception of [resolve] leaves the container as it was: [_unrelative]
    runs before the first update. *)
Definition bind_file (rl : links) (cwd : path) (c : container) (p : pathlike)
  (dest : option pathlike) (option : Z) : result container :=
  if negb (truthy p) then Ok c
  else
    match dest with
    | Some d =>
        if truthy d then
          Ok (set_bound_files c
                (dict_update path_eqb (bound_files c) (to_path d) (mk_bound_file (to_path p) option)))
        else
          ps <- _unrelative rl cwd (to_path p) ;; Ok (bind_all c ps option)
    | None =>
        ps <- _unrelative rl cwd (to_path p) ;; Ok (bind_all c ps option)
    end.

(** *** The [bound] generator *)

(** What one step of [bound] does: yield [(data.path, path, data.option)],
    log a warning naming the source and the destination, or raise the
    exception of [data.path.exists()], which ends the generator. *)
Inductive bound_event : Type :=
  | BYield (source dest : path) (option : Z)
  | BWarn (msg : string)
  | BRaise (e : exn).

Definition bound_warning (source dest : path) : string :=
  "Attempting to bind non-existing file: " ++ as_posix source ++ " to " ++ as_posix dest.

Fixpoint bound_loop (h : fs) (entries : list (path * BoundFile)) : list bound_event :=
  match entries with
  | [] => []
  | (p, data) :: entries' =>
      match exists_ h (bf_path data) with
      | Ok true => BYield (bf_path data) p (bf_option data) :: bound_loop h entries'
      | Ok false => BWarn (bound_warning (bf_path data) p) :: bound_loop h entries'
      | Err e => [BRaise e]
      end
  end.

(** The [bound] generator, run to its end. *)
Definition bound (h : fs) (c : container) : list bound_event :=
  bound_loop h (bound_files c).

(** The entries a consumer of [bound] receives. *)
Fixpoint yielded (evs : list bound_event) : list (path * path * Z) :=
  match evs with
  | [] => []
  | BYield s d o :: evs' => (s, d, o) :: yielded evs'
  | BWarn _ :: evs' => yielded evs'
  | BRaise _ :: evs' => yielded evs'
  end.

(** *** LD_PRELOAD and LD_LIBRARY_PATH lists *)

Definition str_in (x : string) (l : list string) : bool := existsb (String.eqb x) l.

Definition add_ld_preload (c : container) (p : string) : container :=
  if str_in p (ld_preload c) then c else set_ld_preload c (ld_preload c ++ [p]).

Definition add_ld_library_path (c : container) (p : string) : container :=
  if str_in p (ld_lib_path c) then c else set_ld_lib_path c (ld_lib_path c ++ [p]).

Definition bind_env_var (c : container) (k v : string) : container :=
  set_env c (dict_update String.eqb (env c) k v).

(** *** [get_data] *)

(** How [self.run(['ldd', '--version'])] ends for the backend at hand:
    it raises, or it returns an exit code after the command wrote the bytes
    [out] into the redirected [sys.stdout] buffer (a [TemporaryFile], in
    binary mode); [c'] is the container after the run (a backend may
    record state while running). *)
Inductive run_outcome : Type :=
  | RunRaised (e : exn)
  | RunReturned (code : Z) (out : list Z) (c' : container).

(** [get_data]: [if code: raise AnalysisError(code)], otherwise
    [out = sys.stdout.read().decode()] (strict UTF-8),
    [self.libc_v = Version(out)] and [set()] is returned. *)
Definition get_data (r : run_outcome) : result container :=
  match r with
  | RunRaised e => Err e
  | RunReturned code out c' =>
      if negb (Z.eqb code 0) then Err (AnalysisError code)
      else match utf8_decode out with
           | Some s => Ok (set_libc_v c' s)
           | None => Err UnicodeDecodeError
           end
  end.

End Containers.

(** ** containers/shifter.py *)
Module Shifter.
Import Paths Containers.
Local Open Scope string_scope.

(** *** [repr] of a [str] and [str] of a pair, as f-strings format them *)

Definition char_of (n : nat) : string := String (ascii_of_nat n) EmptyString.
Definition DQUOTE : string := char_of 34.
Definition SQUOTE : string := char_of 39.
Definition BACKSLASH : string := char_of 92.

Definition hex_digit (n : nat) : string :=
  char_of (if Nat.ltb n 10 then 48 + n else 87 + n).

(** One character of [repr(s)] when [q] is the chosen quote (code points
    below 256: printable ones are kept, the others escaped). *)
Definition repr_char (q : nat) (c : ascii) : string :=
  let n := nat_of_ascii c in
  if Nat.eqb n 92 then BACKSLASH ++ BACKSLASH
  else if Nat.eqb n q then BACKSLASH ++ char_of q
  else if Nat.eqb n 9 then BACKSLASH ++ "t"
  else if Nat.eqb n 10 then BACKSLASH ++ "n"
  else if Nat.eqb n 13 then BACKSLASH ++ "r"
  else if Nat.ltb n 32 || Nat.eqb n 127 || (Nat.leb 128 n && Nat.leb n 160) || Nat.eqb n 173
  then BACKSLASH ++ "x" ++ hex_digit (Nat.div n 16) ++ hex_digit (Nat.modulo n 16)
  else String c EmptyString.

Definition has_char (n : nat) (s : string) : bool :=
  existsb (fun c => Nat.eqb (nat_of_ascii c) n) (list_ascii_of_string s).

(** [repr(s)]: double quotes when [s] has a single quote and no double one. *)
Definition py_repr (s : string) : string :=
  let q := if has_char 39 s && negb (has_char 34 s) then 34%nat else 39%nat in
  char_of q ++ String.concat EmptyString (map (repr_char q) (list_ascii_of_string s)) ++ char_of q.

(** [f'{t}'] for a pair of strings [t]. *)
Definition str_pair (kv : string * string) : string :=
  "(" ++ py_repr (fst kv) ++ ", " ++ py_repr (snd kv) ++ ")".

(** *** [_setup_import] *)

Inductive log_entry : Type :=
  | LDebug (msg : string)
  | LWarning (msg : string)
  | LError (msg : string).

(** [Path(where, rebased)] *)
Definition path_join (base : path) (s : string) : path :=
  let p := parse_path s in if is_absolute p then p else app base p.

Record import_state := mk_import_state {
  volumes : list (string * string);
  logs : list log_entry;
  copies : list (path * path)         (** [cp -r source temporary] runs *)
}.

Definition etc_error : string := "Shifter: Backend does not support binding to '/etc'".

(** The two adjacent literals of the source concatenate to "filebinding". *)
Definition file_binding_warning (source : path) : string :=
  "Shifter: Failed to bind '" ++ as_posix source
  ++ "': Backend does not support filebinding. Performance may be impacted.".

Section SetupImport.
(** [e4s_cl.CONTAINER_DIR], the guest directory of imported files. *)
Variable CONTAINER_DIR : string.

(** One iteration of the [for source, destination, _ in self.bound] loop.
    [mkdirs_err temporary] is the exception
    [os.makedirs(temporary.parent, exist_ok=True)] raises, if any (a file
    already copied where a directory is needed, say); an exception of the
    generator ([BRaise]) or of [source.is_dir()] propagates as well. *)
Definition import_step (h : fs) (mkdirs_err : path -> option exn) (where_ : path)
  (st : import_state) (ev : bound_event) : result import_state :=
  match ev with
  | BRaise e => Err e
  | BWarn msg => Ok (mk_import_state (volumes st) (app (logs st) [LWarning msg]) (copies st))
  | BYield source destination _ =>
      let d := as_posix destination in
      if String.prefix CONTAINER_DIR d then
        let rebased := substring (String.length CONTAINER_DIR + 1) (String.length d) d in
        let temporary := path_join where_ rebased in
        let logs' := app (logs st) [LDebug ("Shifter: Creating " ++ as_posix temporary ++ " for "
                                            ++ as_posix source ++ " in " ++ d)] in
        match mkdirs_err temporary with
        | Some e => Err e
        | None => Ok (mk_import_state (volumes st) logs' (app (copies st) [(source, temporary)]))
        end
      else
        dir <- is_dir h source ;;
        if dir then
          if String.prefix "/etc" d then
            Ok (mk_import_state (volumes st) (app (logs st) [LError etc_error]) (copies st))
          else Ok (mk_import_state (app (volumes st) [(as_posix source, d)]) (logs st) (copies st))
        else
          Ok (mk_import_state (volumes st)
                (app (logs st) [LWarning (file_binding_warning source)])
                (copies st))
  end.

Fixpoint import_loop (h : fs) (mkdirs_err : path -> option exn) (where_ : path)
  (st : import_state) (evs : list bound_event) : result import_state :=
  match evs with
  | [] => Ok st
  | ev :: evs' =>
      st' <- import_step h mkdirs_err where_ st ev ;;
      import_loop h mkdirs_err where_ st' evs'
  end.

Definition setup_loop (h : fs) (mkdirs_err : path -> option exn) (where_ : path) (c : container)
  : result import_state :=
  import_loop h mkdirs_err where_ (mk_import_state [(as_posix where_, CONTAINER_DIR)] [] []) (bound h c).

(** [_setup_import(where)]: the [--volume] arguments, with the log and the
    copies made into the staging directory. *)
Definition volume_args (st : import_state) : list string :=
  map (fun '(s, d) => "--volume=" ++ s ++ ":" ++ d) (volumes st).

Definition _setup_import (h : fs) (mkdirs_err : path -> option exn) (where_ : path) (c : container)
  : result (list string) :=
  st <- setup_loop h mkdirs_err where_ c ;; Ok (volume_args st).

(** [env_list] of [_prepare]. *)
Definition env_list (c : container) : list string :=
  app (match ld_preload c with [] => []
       | _ => ["--env=LD_PRELOAD=" ++ String.concat ":" (ld_preload c)] end)
  (app (match ld_lib_path c with [] => []
        | _ => ["--env=LD_LIBRARY_PATH=" ++ String.concat ":" (ld_lib_path c)] end)
  (map (fun env_var => "--env=" ++ str_pair env_var ++ "=" ++ str_pair env_var) (env c))).

(** The command line [_prepare] returns, once [self.temp_dir] is [where]. *)
Definition prepare_cmd (executable : string) (h : fs) (mkdirs_err : path -> option exn)
  (where_ : path) (c : container) (command : list string) : result (list string) :=
  vols <- _setup_import h mkdirs_err where_ c ;;
  Ok (app [executable; "--image=" ++ image c] (app (env_list c) (app vols command))).

(** *** [run] with the host's temporary directories made explicit

    [tmp] lists the directories that exist under [$TMPDIR]; [fresh] is the
    name [tempfile.TemporaryDirectory()] creates (not yet in [tmp]).
    Assigning [self.temp_dir] drops the last reference to the previous
    [TemporaryDirectory], whose finaliser then removes its directory.
    [available] is [which(self.executable)], [run_subprocess] the outcome
    of [run_subprocess] on the built command line. *)
Definition remove_dir (d : path) (tmp : list path) : list path :=
  filter (fun x => negb (path_eqb x d)) tmp.

Definition run (available : bool) (executable : string) (run_subprocess : list string -> result Z)
  (h : fs) (mkdirs_err : path -> option exn) (tmp : list path) (fresh : path) (c : container)
  (command : list string) : result (Z * container * list path) :=
  if negb available then Err BackendNotAvailableError
  else
    let tmp1 := app tmp [fresh] in
    let tmp2 := match temp_dir c with Some old => remove_dir old tmp1 | None => tmp1 end in
    let c' := set_temp_dir c (Some fresh) in
    cmd <- prepare_cmd executable h mkdirs_err fresh c' command ;;
    code <- run_subprocess cmd ;;
    Ok (code, c', tmp2).

End SetupImport.
End Shifter.

(** ** cli/commands/analyze.py *)
Module Analyze.
Local Open Scope string_scope.

(** [int(s)] on a [str]: surrounding whitespace, an optional sign, decimal
    digits with single underscores between them; anything else is a
    [ValueError] ([None] here). *)
Definition is_space (c : ascii) : bool :=
  let n := nat_of_ascii c in
  Nat.eqb n 32 || (Nat.leb 9 n && Nat.leb n 13).

Fixpoint strip_left (cs : list ascii) : list ascii :=
  match cs with
  | c :: cs' => if is_space c then strip_left cs' else cs
  | [] => []
  end.

Definition strip (cs : list ascii) : list ascii := rev (strip_left (rev (strip_left cs))).

Definition digit_val (c : ascii) : option Z :=
  let n := nat_of_ascii c in
  if Nat.leb 48 n && Nat.leb n 57 then Some (Z.of_nat n - 48) else None.

(** Digits, [acc] the value so far; [prev_digit] whether the last character
    read was a digit (an underscore must follow a digit and precede one). *)
Fixpoint parse_digits (cs : list ascii) (acc : Z) (prev_digit : bool) : option Z :=
  match cs with
  | [] => if prev_digit then Some acc else None
  | c :: cs' =>
      match digit_val c with
      | Some d => parse_digits cs' (acc * 10 + d) true
      | None =>
          if Ascii.eqb c "_"%char && prev_digit then parse_digits cs' acc false else None
      end
  end.

Definition py_int (s : string) : option Z :=
  match strip (list_ascii_of_string s) with
  | c :: cs =>
      if Ascii.eqb c "-"%char then option_map Z.opp (parse_digits cs 0 false)
      else if Ascii.eqb c "+"%char then parse_digits cs 0 false
      else parse_digits (c :: cs) 0 false
  | [] => None
  end.

(** [os.environ.get(key, default)] *)
Fixpoint environ_get (environ : list (string * string)) (key default : string) : string :=
  match environ with
  | [] => default
  | (k, v) :: environ' => if String.eqb k key then v else environ_get environ' key default
  end.

Definition EXIT_SUCCESS : Z := 0.

Section Main.
(** The library layer ([e4s_cl.cf.libraries]) is used through its
    interface only: a [LibrarySet] value, its search paths, [resolve],
    [GuestLibrary(open(path, 'rb'))] (which may raise) and [json_dumps]. *)
Variable LibrarySet : Type.
Variable empty_set : LibrarySet.
Variable rpath runpath : LibrarySet -> list string.
Variable resolve : string -> list string -> list string -> option string.
Variable GuestLibrary : Type.
Variable load_guest_library : string -> result GuestLibrary.
Variable add : LibrarySet -> GuestLibrary -> LibrarySet.
Variable json_dumps : LibrarySet -> string.
(** [os.write(fd, ...)] raises [OSError(EBADF)] on a descriptor that is not open. *)
Variable fd_open : Z -> bool.

(** The [for soname in args.libraries] loop. *)
Fixpoint resolve_loop (cache : LibrarySet) (sonames : list string) : result LibrarySet :=
  match sonames with
  | [] => Ok cache
  | soname :: rest =>
      match resolve soname (rpath cache) (runpath cache) with
      | None => resolve_loop cache rest
      | Some p =>
          if String.eqb p EmptyString then resolve_loop cache rest
          else
            match load_guest_library p with
            | Ok lib => resolve_loop (add cache lib) rest
            | Err e => Err e
            end
      end
  end.

(** [AnalyzeCommand.main] once [args.libraries] is parsed: the exit code
    or the exception, with the [(fd, data)] writes it made. *)
Definition main (libraries : list string) (environ : list (string * string))
  : result Z * list (Z * string) :=
  match resolve_loop empty_set libraries with
  | Err e => (Err e, [])
  | Ok cache =>
      match py_int (environ_get environ "__E4S_CL_JSON_FD" "-1") with
      | None => (Err ValueError, [])
      | Some fd =>
          if Z.eqb fd (-1) then (Err (InternalError "No file descriptor set to send data !"), [])
          else if fd_open fd then (Ok EXIT_SUCCESS, [(fd, json_dumps cache)])
          else (Err (OSError 9), [])
      end
  end.

End Main.
End Analyze.

(** ** Descriptions taken from the specification, to compare with the code *)
Module BindSpec.
Import Paths Containers.

(** The prefix before each [".."] segment of a path, left to right
    ([prefix] holds the parts already passed). *)
Fixpoint dotdot_prefixes (prefix : path) (rest : list string) : list path :=
  match rest with
  | [] => []
  | part :: rest' =>
      (if String.eqb part ".." then [prefix] else [])
      ++ dotdot_prefixes (prefix ++ [part]) rest'
  end.

(** [resolve] applied to each path in turn; the first exception stops it. *)
Fixpoint resolve_all (rl : links) (cwd : path) (ps : list path) : result (list path) :=
  match ps with
  | [] => Ok []
  | q :: ps' => r <- resolve rl cwd q ;; rs <- resolve_all rl cwd ps' ;; Ok (r :: rs)
  end.




End BindSpec.

(** ** First-insertion order, and the container operations of the code base *)
Module ListSpec.
Import Paths Containers.

(** The elements of [ps] not in [seen], each once, in the order of their
    first occurrence. *)
Fixpoint fresh_in_order (seen ps : list string) : list string :=
  match ps with
  | [] => []
  | p :: ps' => if str_in p seen then fresh_in_order seen ps' else p :: fresh_in_order (seen ++ [p]) ps'
  end.

(** The calls that change a container's plan ([ld_preload] and
    [ld_lib_path] are only written by [add_ld_preload] and
    [add_ld_library_path] in the code base). *)
Inductive op : Type :=
  | AddLdPreload (p : string)
  | AddLdLibraryPath (p : string)
  | BindEnvVar (k v : string)
  | BindFile (rl : links) (cwd : path) (a : pathlike) (dest : option pathlike) (option : Z).

(** A [bind_file] call that raises leaves the container as it was, and the
    caller may go on with it. *)
Definition apply_op (c : container) (o : op) : container :=
  match o with
  | AddLdPreload p => add_ld_preload c p
  | AddLdLibraryPath p => add_ld_library_path c p
  | BindEnvVar k v => bind_env_var c k v
  | BindFile rl cwd a dest option =>
      match bind_file rl cwd c a dest option with Ok c' => c' | Err _ => c end
  end.

End ListSpec.

(** ** Sample inputs used by the witnesses *)
Module Samples.
Import Paths Containers.
Local Open Scope string_scope.

(** A host with no symbolic link. *)
Definition no_links : links := fun _ => None.



(** A host with two directories and two regular files. *)
Definition demo_fs : fs := fun p =>
  if path_eqb p (parse_path "/data") || path_eqb p (parse_path "/srv/conf") then Found KDir
  else if path_eqb p (parse_path "/home/u/x.so") || path_eqb p (parse_path "/usr/lib/libmpi.so")
  then Found KFile
  else StatFailed ENOENT.

(** Binds: a directory, a directory into /etc, a plain file, a file for the
    import directory, and a missing file. *)
Definition demo_container : container :=
  let b (c : container) (src dst : string) :=
    match bind_file no_links (parse_path "/") c (PStr src) (Some (PStr dst)) READ_ONLY with
    | Ok c' => c'
    | Err _ => c
    end in
  b (b (b (b (b (init_container "img") "/data" "/data") "/srv/conf" "/etc/conf")
          "/home/u/x.so" "/opt/x.so") "/usr/lib/libmpi.so" "/.e4s-cl/hostlibs/libmpi.so")
    "/missing" "/m".

Definition demo_stage : path := parse_path "/tmp/stage".

Fixpoint str_repeat (n : nat) (s : string) : string :=
  match n with O => EmptyString | S n' => s ++ str_repeat n' s end.

(** [/xxx...x], with a 256-character name, longer than [NAME_MAX]. *)
Definition long_path : path := ["/"; str_repeat 256 "x"].

(** A host where [stat] on [long_path] fails with [ENAMETOOLONG] and no
    other path exists. *)
Definition long_fs : fs := fun p =>
  if path_eqb p long_path then StatFailed ENAMETOOLONG else StatFailed ENOENT.

(** Two binds, [long_path] first, then [/b]. *)
Definition long_container : container :=
  set_bound_files (init_container "img")
    [(long_path, mk_bound_file long_path READ_ONLY);
     (parse_path "/b", mk_bound_file (parse_path "/b") READ_ONLY)].

End Samples.

(** ** Python [str] methods on text

    A Rocq [string] is read as a Python [str] whose code points are below
    256 (one [ascii] per code point). *)
Module PyText.
Local Open Scope string_scope.

(** [c.isspace()] for code points below 256. *)
Definition py_isspace (c : ascii) : bool :=
  let n := nat_of_ascii c in
  (Nat.leb 9 n && Nat.leb n 13) || (Nat.leb 28 n && Nat.leb n 32)
  || Nat.eqb n 133 || Nat.eqb n 160.

Fixpoint lstrip_by (p : ascii -> bool) (s : string) : string :=
  match s with
  | String c s' => if p c then lstrip_by p s' else s
  | EmptyString => EmptyString
  end.

Fixpoint rstrip_by (p : ascii -> bool) (s : string) : string :=
  match s with
  | EmptyString => EmptyString
  | String c s' =>
      match rstrip_by p s' with
      | EmptyString => if p c then EmptyString else String c EmptyString
      | r => String c r
      end
  end.

Definition strip_by (p : ascii -> bool) (s : string) : string := rstrip_by p (lstrip_by p s).

(** [s.strip()] *)
Definition py_strip (s : string) : string := strip_by py_isspace s.

(** [c in s] for one character [c]. *)
Fixpoint has_ch (c : ascii) (s : string) : bool :=
  match s with
  | EmptyString => false
  | String x s' => Ascii.eqb x c || has_ch c s'
  end.


(** [s.endswith(c)] for one character [c]. *)
Fixpoint ends_with_ch (c : ascii) (s : string) : bool :=
  match s with
  | EmptyString => false
  | String x EmptyString => Ascii.eqb x c
  | String _ s' => ends_with_ch c s'
  end.

(** [s.split(c)] for one character [c]. *)
Fixpoint split_ch (c : ascii) (s : string) : list string :=
  match s with
  | EmptyString => [EmptyString]
  | String x s' =>
      if Ascii.eqb x c then EmptyString :: split_ch c s'
      else match split_ch c s' with
           | h :: t => String x h :: t
           | [] => [String x EmptyString]
           end
  end.

(** [s.split(c, 1)] *)
Fixpoint split1_ch (c : ascii) (s : string) : list string :=
  match s with
  | EmptyString => [EmptyString]
  | String x s' =>
      if Ascii.eqb x c then [EmptyString; s']
      else match split1_ch c s' with
           | h :: t => String x h :: t
           | [] => [String x EmptyString]
           end
  end.

(** [s.split()]: the maximal runs of non-whitespace characters. *)
Fixpoint split_ws (s : string) : list string :=
  match s with
  | EmptyString => []
  | String x s' =>
      if py_isspace x then split_ws s'
      else match s' with
           | String y _ =>
               if py_isspace y then String x EmptyString :: split_ws s'
               else match split_ws s' with
                    | h :: t => String x h :: t
                    | [] => [String x EmptyString]
                    end
           | EmptyString => [String x EmptyString]
           end
  end.

(** [d.get(k)] and [d.get(k, default)] on a [str]-keyed dict. *)
Fixpoint sget (d : list (string * string)) (k : string) : option string :=
  match d with
  | [] => None
  | (k', v) :: d' => if String.eqb k' k then Some v else sget d' k
  end.

Definition sget_default (d : list (string * string)) (k default : string) : string :=
  match sget d k with Some v => v | None => default end.

(** [d.update(e)] for two [str]-keyed dicts. *)
Definition dict_merge (d e : list (string * string)) : list (string * string) :=
  fold_left (fun m kv => Containers.dict_update String.eqb m (fst kv) (snd kv)) e d.

Definition backslash : ascii := ascii_of_nat 92.
Definition is_backslash (c : ascii) : bool := Ascii.eqb c backslash.
Definition is_dquote (c : ascii) : bool := Ascii.eqb c (ascii_of_nat 34).

(** How reading a text file ends: all its lines are read ([Lines]), [open]
    raises ([ReadRaised]), or the lines [ls] are read and the next read
    raises ([LinesRaised ls e]; [readlines()] then returns nothing). *)
Inductive text_file : Type :=
  | Lines (ls : list string)
  | ReadRaised (e : exn)
  | LinesRaised (ls : list string) (e : exn).

(** [except OSError] (also spelled [IOError]) *)
Definition is_oserror (e : exn) : bool :=
  match e with
  | PermissionError | FileNotFoundError | IsADirectoryError | OSError _ => true
  | _ => false
  end.

End PyText.

(** ** The Shifter configuration file ([containers/shifter.py]) *)
Module ShifterConfig.
Import PyText.
Local Open Scope string_scope.

(** The loop of [_deprettify], with its [buffer]. *)
Fixpoint deprettify_loop (buffer : string) (lines : list string) : list string :=
  match lines with
  | [] => []
  | line :: rest =>
      let buffer' := buffer ++ line in
      if ends_with_ch backslash buffer'
      then deprettify_loop (rstrip_by is_backslash buffer') rest
      else buffer' :: deprettify_loop EmptyString rest
  end.

Definition _deprettify (lines : list string) : list string := deprettify_loop EmptyString lines.

(** [tuple(map(lambda x: x.strip(), directive.split('=', 1)))] when the
    split gives two parts. *)
Definition directive_entry (directive : string) : option (string * string) :=
  match split1_ch "=" directive with
  | [k; v] => Some (py_strip k, py_strip v)
  | _ => None
  end.

Definition unrecognized (directive : string) : string :=
  "Unrecognized directive: '" ++ directive ++ "'".

(** The loop of [_directives_to_dict]: the [entries], and the warnings. *)
Fixpoint directive_entries (directives : list string) : list (string * string) * list string :=
  match directives with
  | [] => ([], [])
  | d :: ds =>
      let (es, ws) := directive_entries ds in
      match directive_entry d with
      | Some e => (e :: es, ws)
      | None => (es, unrecognized d :: ws)
      end
  end.

(** [dict(entries)] *)
Definition dict_of (entries : list (string * string)) : list (string * string) :=
  dict_merge [] entries.

Definition _directives_to_dict (directives : list string) : list (string * string) :=
  dict_of (fst (directive_entries directives)).


(** The [for var in prepend.split()] loop of [linker_path]; [None] when
    [var.split('=')[1]] raises [IndexError]. *)
Fixpoint words_dirs (words : list string) : option (list string) :=
  match words with
  | [] => Some []
  | var :: words' =>
      if String.prefix "LD_LIBRARY_PATH" var then
        match nth_error (split_ch "=" var) 1 with
        | Some d => option_map (cons d) (words_dirs words')
        | None => None
        end
      else words_dirs words'
  end.

(** The [for module in ...] loop of [linker_path]. *)
Fixpoint modules_dirs (config : list (string * string)) (modules : list string)
  : option (list string) :=
  match modules with
  | [] => Some []
  | module :: modules' =>
      let here :=
        match sget config ("module_" ++ module ++ "_siteEnvPrepend") with
        | Some prepend => if String.eqb prepend EmptyString then Some [] else words_dirs (split_ws prepend)
        | None => Some []
        end in
      match here with
      | None => None
      | Some ds => option_map (app ds) (modules_dirs config modules')
      end
  end.

Definition linker_dirs (config : list (string * string)) : option (list string) :=
  modules_dirs config (split_ch "," (sget_default config "defaultModules" EmptyString)).

(** [ShifterContainer.linker_path] for the parsed configuration [config]
    ([os.pathsep] is [":"]); [None] is the [IndexError]. *)
Definition linker_path (config : list (string * string)) : option (list string) :=
  option_map (fun path => split_ch ":" (String.concat ":" path)) (linker_dirs config).

End ShifterConfig.

(** ** Backend registration and dispatch ([containers/__init__.py]) *)
Module Backends.
Import Paths PyText.
Local Open Scope string_scope.

(** A backend module as the registration loop observes it: [_module.CLASS]
    is truthy or not, and [getattr(CLASS, 'run')] is absent ([None]) or has
    a truthiness. *)
Record class_info := mk_class { cls_truthy : bool; cls_run : option bool }.

Record module_info := mk_module {
  mod_import_name : string;             (** [_module_name] *)
  mod_NAME : option string;             (** [_module.NAME], if defined *)
  mod_CLASS : option class_info;        (** [_module.CLASS], if defined *)
  mod_DEBUG_BACKEND : bool;             (** [getattr(_module, 'DEBUG_BACKEND', False)] *)
  mod_MIMES : list string               (** [getattr(_module, 'MIMES', [])] *)
}.

(** [assert_module]; [None] when [getattr(_module.CLASS, 'run')] raises
    [AttributeError]. *)
Definition assert_module (m : module_info) : option bool :=
  match mod_NAME m, mod_CLASS m with
  | Some _, Some cls =>
      if cls_truthy cls then
        match cls_run cls with None => None | Some _ => Some true end
      else Some true
  | _, _ => Some false
  end.

Record registry := mk_registry {
  BACKENDS : list (string * string);
  EXPOSED_BACKENDS : list string;
  MIMES : list (string * string)
}.

Definition empty_registry : registry := mk_registry [] [] [].

(** One iteration of the module loop at the end of the file. *)
Definition register (r : registry) (m : module_info) : option registry :=
  match assert_module m with
  | None => None
  | Some false => Some r
  | Some true =>
      match mod_NAME m with
      | None => Some r
      | Some name =>
          Some (mk_registry
                  (Containers.dict_update String.eqb (BACKENDS r) name (mod_import_name m))
                  (if mod_DEBUG_BACKEND m then EXPOSED_BACKENDS r else app (EXPOSED_BACKENDS r) [name])
                  (app (MIMES r) (map (fun mimetype => (mimetype, name)) (mod_MIMES m))))
      end
  end.

Fixpoint register_all (r : registry) (ms : list module_info) : option registry :=
  match ms with
  | [] => Some r
  | m :: ms' => match register r m with Some r' => register_all r' ms' | None => None end
  end.

(** How [Container.__new__(cls, image, name)] ends: a driver of the class of
    the module registered under [name], [BackendUnsupported(name)], the
    [TypeError] of [object.__new__] on a falsy [CLASS] (a truthy [CLASS]
    is taken to be a class), or the [AttributeError] of [module.CLASS]. *)
Inductive new_outcome : Type :=
  | Driver (module_name : string)
  | RaiseBackendUnsupported (name : string)
  | RaiseTypeError
  | RaiseAttributeError.

(** [sys.modules.get(module_name)] once the modules [ms] are imported. *)
Definition find_module (ms : list module_info) (module_name : string) : option module_info :=
  find (fun m => String.eqb (mod_import_name m) module_name) ms.

Definition container_new (ms : list module_info) (r : registry) (name : string) : new_outcome :=
  match sget (BACKENDS r) name with
  | Some module_name =>
      if String.eqb module_name EmptyString then RaiseBackendUnsupported name
      else
        match find_module ms module_name with
        | Some m =>
            match mod_CLASS m with
            | Some cls => if cls_truthy cls then Driver module_name else RaiseTypeError
            | None => RaiseAttributeError
            end
        | None => RaiseAttributeError
        end
  | None => RaiseBackendUnsupported name
  end.

(** [PurePath.name] *)
Definition name_of (p : path) : string :=
  if Nat.eqb (length p) (if is_absolute p then 1 else 0) then EmptyString else last p EmptyString.

(** [name.rfind(c)], [None] for [-1]. *)
Fixpoint rfind_ch (c : ascii) (s : string) : option nat :=
  match s with
  | EmptyString => None
  | String x s' =>
      match rfind_ch c s' with
      | Some i => Some (S i)
      | None => if Ascii.eqb x c then Some O else None
      end
  end.

(** [PurePath.suffix] of a path whose name is [name]. *)
Definition suffix_of_name (name : string) : string :=
  match rfind_ch "." name with
  | Some i =>
      if Nat.ltb 0 i && Nat.ltb i (String.length name - 1)
      then substring i (String.length name - i) name
      else EmptyString
  | None => EmptyString
  end.

(** [guess_backend(path)] against the registered [MIMES]. *)
Definition guess_backend (mimes : list (string * string)) (s : string) : option string :=
  let suffix := suffix_of_name (name_of (parse_path s)) in
  match filter (fun x => String.eqb (fst x) suffix) mimes with
  | [(_, backend)] => Some backend
  | _ => None
  end.

End Backends.

(** ** WI4MPI support ([cf/wi4mpi.py]), a caller of [bind_file] and
    [add_ld_library_path] *)
Module Wi4mpi.
Import Paths Containers PyText.
Local Open Scope string_scope.

(** The [while line := cfg.readline().strip()] loop of [__read_cfg]: an
    empty stripped line (a blank line, or the end of the file) ends it. *)
Fixpoint read_cfg_loop (config : list (string * string)) (ls : list string)
  : list (string * string) :=
  match ls with
  | [] => config
  | l :: rest =>
      let line := py_strip l in
      if String.eqb line EmptyString then config
      else if String.prefix "#" line || negb (has_ch "=" line) then read_cfg_loop config rest
      else match split_ch "=" line with
           | [k; v] => read_cfg_loop (dict_update String.eqb config k (strip_by is_dquote v)) rest
           | _ => read_cfg_loop config rest
           end
  end.

Definition __read_cfg (f : text_file) : result (list (string * string)) :=
  match f with
  | ReadRaised e => if is_oserror e then Ok [] else Err e
  | Lines ls => Ok (read_cfg_loop [] ls)
  | LinesRaised ls e =>
      (* the loop stops at a blank line before the read that raises; an
         [OSError] keeps the entries read so far *)
      if existsb (fun l => String.eqb (py_strip l) EmptyString) ls || is_oserror e
      then Ok (read_cfg_loop [] ls) else Err e
  end.









End Wi4mpi.

(** ** Lookup in the container's dictionaries *)
Module Dicts.
Import Paths Containers.

Fixpoint dict_lookup {K V} (eqb : K -> K -> bool) (d : list (K * V)) (k : K) : option V :=
  match d with
  | [] => None
  | (k', v) :: d' => if eqb k' k then Some v else dict_lookup eqb d' k
  end.

(** [self.__bound_files.get(dest)] *)
Definition bound_get (c : container) (dest : path) : option BoundFile :=
  dict_lookup path_eqb (bound_files c) dest.

End Dicts.

(** * Properties *)

Module CompilerProofs.
Import Compiler.
Local Open Scope string_scope.

Lemma first_vendor_precendence (c : pystr) :
  first_vendor precendence c =
  if contains (lit "AMD") c then Some AMD
  else if contains (lit "clang") c then Some LLVM
  else if contains (lit "GCC") c then Some GNU
  else None.
Proof.
  unfold first_vendor, precendence; cbn -[contains lit].
  unfold _amd_check, _llvm_check, _gnu_check.
  destruct (contains (lit "AMD") c), (contains (lit "clang") c), (contains (lit "GCC") c);
    reflexivity.
Qed.

(** C1: the checks run in the order AMD, clang (LLVM), GCC (GNU) and GNU is
    the default; a comment containing "AMD", "clang" and "GCC" gives AMD. *)
Theorem compiler_vendor_precedence (f : elf_file) (c : pystr) :
  _get_comment f = Ok c ->
  compiler_vendor f =
    Ok (if contains (lit "AMD") c then AMD
        else if contains (lit "clang") c then LLVM
        else if contains (lit "GCC") c then GNU
        else GNU)
  /\ (contains (lit "AMD") c = true -> contains (lit "clang") c = true ->
      contains (lit "GCC") c = true -> compiler_vendor f = Ok AMD).
Proof.
  intros Hc.
  assert (E : compiler_vendor f =
    Ok (if contains (lit "AMD") c then AMD
        else if contains (lit "clang") c then LLVM
        else if contains (lit "GCC") c then GNU
        else GNU)).
  { unfold compiler_vendor, bind; rewrite Hc, first_vendor_precendence.
    destruct (contains (lit "AMD") c), (contains (lit "clang") c), (contains (lit "GCC") c);
      reflexivity. }
  split; [exact E|].
  intros HA _ _; rewrite E, HA; reflexivity.
Qed.

(** An ELF file whose single [.comment] section reads "AMD clang GCC". *)
Definition rocm_elf : elf_file :=
  Opened (SCons (mk_section ".text" [144]) (SCons (mk_section ".comment" (lit "AMD clang GCC")) SEnd)).

Lemma compiler_vendor_precedence_witness :
  _get_comment rocm_elf = Ok (lit "AMD clang GCC") /\ compiler_vendor rocm_elf = Ok AMD.
Proof.
  split; [vm_compute; reflexivity|].
  apply (compiler_vendor_precedence rocm_elf (lit "AMD clang GCC")); vm_compute; reflexivity.
Defined.

(** C8 (counterexample): a [.comment] section that is not valid UTF-8 makes
    [decode()] raise [UnicodeDecodeError], which [_get_comment] does not
    catch: [compiler_vendor] raises instead of returning GNU. *)
Lemma compiler_vendor_raises_on_bad_utf8 :
  compiler_vendor (Opened (SCons (mk_section ".comment" (lit "GCC: " ++ [255])) SEnd))
  = Err UnicodeDecodeError.
Proof. vm_compute. reflexivity. Qed.

(** C8 (amended): [compiler_vendor] raises exactly when reading the
    [.comment] sections raises an exception other than [PermissionError],
    [FileNotFoundError], [IsADirectoryError] and [ELFError]; those four
    give the GNU default; whenever it returns, the value is AMD, LLVM or
    GNU, never INTEL, PGI, ARMCLANG or FUJITSU. *)
Theorem compiler_vendor_outcomes (f : elf_file) :
  (forall e, compiler_vendor f = Err e <-> read_comment f = Err e /\ caught e = false)
  /\ (forall e, read_comment f = Err e -> caught e = true -> compiler_vendor f = Ok GNU)
  /\ (forall v, compiler_vendor f = Ok v ->
        (v = AMD \/ v = LLVM \/ v = GNU) /\
        v <> INTEL /\ v <> PGI /\ v <> ARMCLANG /\ v <> FUJITSU).
Proof.
  unfold compiler_vendor, _get_comment, bind.
  split; [|split].
  - intros e. destruct (read_comment f) as [c|e'].
    + destruct (first_vendor precendence c); split; intros H; try discriminate;
        destruct H as [H _]; discriminate.
    + destruct (caught e') eqn:Hc.
      * destruct (first_vendor precendence []); split; intros H; try discriminate;
          destruct H as [H1 H2]; injection H1 as ->; congruence.
      * split; intros H; [injection H as <-; auto | destruct H as [H _]; injection H as ->; reflexivity].
  - intros e He Hc. rewrite He, Hc. reflexivity.
  - intros v H.
    assert (Hv : v = AMD \/ v = LLVM \/ v = GNU).
    { destruct (read_comment f) as [c|e].
      - rewrite first_vendor_precendence in H.
        destruct (contains (lit "AMD") c), (contains (lit "clang") c), (contains (lit "GCC") c);
          injection H as <-; auto.
      - destruct (caught e); [|discriminate].
        rewrite first_vendor_precendence in H; vm_compute in H; injection H as <-; auto. }
    split; [exact Hv|].
    unfold AMD, LLVM, GNU, INTEL, PGI, ARMCLANG, FUJITSU in *.
    destruct Hv as [ -> | [ -> | -> ] ]; repeat split; discriminate.
Qed.

Lemma compiler_vendor_outcomes_witness :
  compiler_vendor (OpenRaised FileNotFoundError) = Ok GNU
  /\ compiler_vendor rocm_elf = Ok AMD
  /\ compiler_vendor (OpenRaised (OSError 36)) = Err (OSError 36).
Proof.
  destruct (compiler_vendor_outcomes (OpenRaised FileNotFoundError)) as [_ [H2 _]].
  destruct (compiler_vendor_outcomes (OpenRaised (OSError 36))) as [H1 _].
  split; [apply (H2 FileNotFoundError); reflexivity|].
  split; [vm_compute; reflexivity|].
  apply H1; split; reflexivity.
Defined.

End CompilerProofs.

Module BindProofs.
Import Paths Containers BindSpec Samples.

Lemma path_eqb_spec (p q : path) : path_eqb p q = true <-> p = q.
Proof.
  unfold path_eqb; destruct (list_eq_dec string_dec p q); split; congruence.
Qed.

Lemma path_eqb_false (p q : path) : path_eqb p q = false <-> p <> q.
Proof.
  rewrite <- path_eqb_spec; destruct (path_eqb p q); split; congruence.
Qed.

(** *** What [resolve] returns has no [".."%string] part *)







(** *** [_unrelative] against the paths the specification names *)

Lemma first_occurrence (a : string) (l : list string) :
  In a l -> exists l1 l2, l = l1 ++ a :: l2 /\ ~ In a l1.
Proof.
  induction l as [|b l IH]; intros H; [contradiction|].
  destruct (string_dec b a) as [->|Hne].
  - exists [], l; split; [reflexivity | intros []].
  - destruct H as [H|H]; [congruence|].
    destruct (IH H) as (l1 & l2 & -> & Hn).
    exists (b :: l1), l2; split; [reflexivity|].
    intros [H'|H']; [congruence | exact (Hn H')].
Qed.





Lemma firstn_S_split (parts : path) (i : nat) (part : string) (rest : list string) :
  firstn i parts ++ part :: rest = parts -> firstn (S i) parts = firstn i parts ++ [part].
Proof.
  intros Hsplit.
  assert (Hlen := f_equal (@length string) Hsplit).
  rewrite length_app in Hlen; cbn in Hlen.
  assert (Hl : length (firstn i parts) = i) by (rewrite length_firstn in *; lia).
  rewrite <- Hsplit at 1.
  rewrite firstn_app, Hl, firstn_all2 by lia.
  replace (S i - i)%nat with 1%nat by lia; reflexivity.
Qed.

Lemma add_dotdot_prefixes_spec rl (cwd parts : path) :
  forall rest i visited, firstn i parts ++ rest = parts ->
  add_dotdot_prefixes rl cwd parts i rest visited
  = match resolve_all rl cwd (dotdot_prefixes (firstn i parts) rest) with
    | Ok rs => Ok (fold_left set_add rs visited)
    | Err e => Err e
    end.
Proof.
  induction rest as [|part rest IH]; intros i visited Hsplit; cbn [add_dotdot_prefixes dotdot_prefixes].
  - reflexivity.
  - assert (Hn := firstn_S_split parts i part rest Hsplit).
    assert (Hs : firstn (S i) parts ++ rest = parts) by (rewrite Hn, <- app_assoc; exact Hsplit).
    destruct (String.eqb part ".."%string) eqn:E; cbn [app].
    + cbn [resolve_all]. destruct (resolve rl cwd (firstn i parts)) as [r|e]; cbn [bind]; [|reflexivity].
      rewrite (IH (S i) (set_add visited r) Hs), Hn.
      destruct (resolve_all rl cwd _); reflexivity.
    + rewrite (IH (S i) visited Hs), Hn; reflexivity.
Qed.


(** *** On a host with no symbolic link nothing raises *)






















End BindProofs.

Module ShifterProofs.
Import Paths Containers Shifter.

(** *** The [bound] generator *)

Lemma bound_loop_yield (h : fs) (entries : list (path * BoundFile)) s d o :
  In (BYield s d o) (bound_loop h entries) -> exists_ h s = Ok true.
Proof.
  induction entries as [|[p data] entries IH]; cbn [bound_loop]; [intros []|].
  destruct (exists_ h (bf_path data)) as [[|]|e] eqn:E; intros H.
  - destruct H as [H|H]; [injection H as <- _ _; exact E | exact (IH H)].
  - destruct H as [H|H]; [discriminate H | exact (IH H)].
  - destruct H as [H|[]]; discriminate H.
Qed.

Lemma bound_loop_no_raise (h : fs) (entries : list (path * BoundFile)) e :
  (forall d data, In (d, data) entries -> exists b, exists_ h (bf_path data) = Ok b) ->
  ~ In (BRaise e) (bound_loop h entries).
Proof.
  induction entries as [|[p data] entries IH]; intros Hok; cbn [bound_loop]; [intros []|].
  destruct (Hok p data (or_introl eq_refl)) as [b Eb]; rewrite Eb.
  assert (IH' := IH (fun d data' H => Hok d data' (or_intror H))).
  destruct b; intros [H|H]; try discriminate H; exact (IH' H).
Qed.

Lemma bound_loop_app (h : fs) (pre rest : list (path * BoundFile)) :
  (forall d data, In (d, data) pre -> exists b, exists_ h (bf_path data) = Ok b) ->
  bound_loop h (pre ++ rest) = bound_loop h pre ++ bound_loop h rest.
Proof.
  induction pre as [|[p data] pre IH]; intros Hok; [reflexivity|].
  cbn [app bound_loop]. destruct (Hok p data (or_introl eq_refl)) as [b Eb]; rewrite Eb.
  rewrite (IH (fun d data' H => Hok d data' (or_intror H))). destruct b; reflexivity.
Qed.

Lemma exists_is_dir (h : fs) (s : path) : exists_ h s = Ok true -> exists b, is_dir h s = Ok b.
Proof.
  unfold exists_, is_dir. destruct (h s) as [[|]|errno|]; intros H.
  - exists true; reflexivity.
  - exists false; reflexivity.
  - destruct (_ignore_error errno); discriminate H.
  - discriminate H.
Qed.

Lemma yielded_In (evs : list bound_event) s d o :
  In (s, d, o) (yielded evs) <-> In (BYield s d o) evs.
Proof.
  induction evs as [|[s' d' o'|msg|e] evs IH]; cbn; [tauto| | rewrite IH; intuition discriminate
                                                       | rewrite IH; intuition discriminate].
  rewrite IH; split; intros [H|H]; auto; left; congruence.
Qed.

(** *** Staging directory lifetime *)

Lemma remove_dir_In (d x : path) (l : list path) : In x (remove_dir d l) <-> In x l /\ x <> d.
Proof.
  unfold remove_dir; rewrite filter_In, negb_true_iff, BindProofs.path_eqb_false; tauto.
Qed.

(** C3 (amended): when [run] returns, the staging directory it created is
    still on disk, whatever the exit code, and [self.temp_dir] holds it;
    the directory of the previous call is gone, released when
    [self.temp_dir] was reassigned; no other directory is touched.  The
    code returned is the one [run_subprocess] gives for the command line
    [_prepare] built. *)
Theorem shifter_run_keeps_staging (CD : string) (available : bool) (exe : string)
  (run_subprocess : list string -> result Z) (h : fs) (mkdirs_err : path -> option exn)
  (tmp : list path) (fresh : path) (c : container)
  (command : list string) (code : Z) (c' : container) (tmp' : list path) :
  ~ In fresh tmp ->
  (forall old, temp_dir c = Some old -> In old tmp) ->
  run CD available exe run_subprocess h mkdirs_err tmp fresh c command = Ok (code, c', tmp') ->
  In fresh tmp' /\ temp_dir c' = Some fresh
  /\ (forall old, temp_dir c = Some old -> ~ In old tmp')
  /\ (forall x, In x tmp' <-> x = fresh \/ (In x tmp /\ temp_dir c <> Some x))
  /\ exists cmd, prepare_cmd CD exe h mkdirs_err fresh c' command = Ok cmd
                 /\ run_subprocess cmd = Ok code.
Proof.
  intros Hfresh Hold Hrun. unfold run in Hrun.
  destruct available; [|discriminate]. cbn [negb] in Hrun.
  destruct (prepare_cmd CD exe h mkdirs_err fresh (set_temp_dir c (Some fresh)) command)
    as [cmd|e] eqn:Ecmd; cbn [bind] in Hrun; [|discriminate Hrun].
  destruct (run_subprocess cmd) as [k|e] eqn:Ek; cbn [bind] in Hrun; [|discriminate Hrun].
  injection Hrun as <- <- <-.
  assert (Hset : forall x, In x (match temp_dir c with
                                 | Some old => remove_dir old (tmp ++ [fresh])
                                 | None => tmp ++ [fresh] end)
                           <-> x = fresh \/ (In x tmp /\ temp_dir c <> Some x)).
  { intros x. destruct (temp_dir c) as [old|] eqn:Eo.
    - rewrite remove_dir_In, in_app_iff; cbn.
      assert (Hne : old <> fresh) by (intros ->; exact (Hfresh (Hold fresh eq_refl))).
      split.
      + intros [[Hx|[Hx|[]]] Hxo]; [right; split; [exact Hx | congruence] | left; congruence].
      + intros [->|[Hx Hxo]]; split; [right; left; reflexivity | congruence
                                     | left; exact Hx | congruence].
    - rewrite in_app_iff; cbn. split.
      + intros [Hx|[Hx|[]]]; [right; split; [exact Hx | discriminate] | left; congruence].
      + intros [->|[Hx _]]; [right; left; reflexivity | left; exact Hx]. }
  split; [apply Hset; left; reflexivity|]. split; [reflexivity|]. split.
  - intros old Eo Hin. apply Hset in Hin as [->|[_ Hn]]; [|exact (Hn Eo)].
    exact (Hfresh (Hold fresh Eo)).
  - split; [exact Hset|]. exists cmd; split; [exact Ecmd | exact Ek].
Qed.

Lemma shifter_run_keeps_staging_witness :
  exists code c' tmp',
    run "/.e4s-cl" true "/usr/bin/shifter" (fun _ => Ok 0) (fun _ => StatFailed ENOENT) (fun _ => None)
      [["/"%string; "tmp"%string; "tmpold"%string]] ["/"%string; "tmp"%string; "tmpq1"%string]
      (set_temp_dir (init_container "img") (Some ["/"%string; "tmp"%string; "tmpold"%string]))
      ["true"%string] = Ok (code, c', tmp')
    /\ In ["/"%string; "tmp"%string; "tmpq1"%string] tmp'
    /\ temp_dir c' = Some ["/"%string; "tmp"%string; "tmpq1"%string]
    /\ ~ In ["/"%string; "tmp"%string; "tmpold"%string] tmp'.
Proof.
  do 3 eexists. split; [vm_compute; reflexivity|].
  edestruct (shifter_run_keeps_staging "/.e4s-cl" true "/usr/bin/shifter" (fun _ => Ok 0)
               (fun _ => StatFailed ENOENT) (fun _ => None)
               [["/"%string; "tmp"%string; "tmpold"%string]] ["/"%string; "tmp"%string; "tmpq1"%string]
               (set_temp_dir (init_container "img") (Some ["/"%string; "tmp"%string; "tmpold"%string]))
               ["true"%string])
    as [H1 [H2 [H3 _]]];
    [ cbn; intros [H|[]]; discriminate H
    | intros old Ho; injection Ho as <-; left; reflexivity
    | vm_compute; reflexivity | ].
  split; [exact H1|]. split; [exact H2|]. exact (H3 _ eq_refl).
Defined.

(** C3 (counterexample): after a run whose contained process exits with
    status 1, the staging directory still exists. *)
Lemma shifter_staging_survives_failed_run :
  match run "/.e4s-cl" true "/usr/bin/shifter" (fun _ => Ok 1) (fun _ => StatFailed ENOENT)
          (fun _ => None) [] ["/"%string; "tmp"%string; "tmpq1"%string] (init_container "img")
          ["true"%string] with
  | Ok (code, _, tmp') => code = 1 /\ In ["/"%string; "tmp"%string; "tmpq1"%string] tmp'
  | Err _ => False
  end.
Proof. vm_compute. split; [reflexivity | left; reflexivity]. Qed.

(** *** Environment arguments *)

(** C4 (code bug): for the entry [("A", "B")] the argument built is
    [--env=('A', 'B')=('A', 'B')], and [--env=A=B] is not on the command line. *)
Theorem shifter_env_argument_is_pair_repr :
  env_list (bind_env_var (init_container "img") "A" "B")
    = ["--env=('A', 'B')=('A', 'B')"%string]
  /\ exists cmd,
       prepare_cmd "/.e4s-cl" "/usr/bin/shifter" (fun _ => StatFailed ENOENT) (fun _ => None)
         ["/"%string; "tmp"%string; "x"%string] (bind_env_var (init_container "img") "A" "B")
         ["true"%string] = Ok cmd
       /\ str_in "--env=('A', 'B')=('A', 'B')" cmd = true
       /\ str_in "--env=A=B" cmd = false.
Proof.
  split; [vm_compute; reflexivity|].
  eexists; split; [vm_compute; reflexivity | split; vm_compute; reflexivity].
Qed.

(** *** Volumes *)

Section Volumes.
Variable CD : string.
Variable h : fs.
Variable mk : path -> option exn.
Variable w : path.

(** The volume one event of [bound] contributes. *)
Definition vol_of (ev : bound_event) : list (string * string) :=
  match ev with
  | BYield s d _ =>
      if String.prefix CD (as_posix d) then []
      else match is_dir h s with
           | Ok true => if String.prefix "/etc" (as_posix d) then [] else [(as_posix s, as_posix d)]
           | _ => []
           end
  | _ => []
  end.

Lemma import_step_volumes (st st' : import_state) (ev : bound_event) :
  import_step CD h mk w st ev = Ok st' -> volumes st' = volumes st ++ vol_of ev.
Proof.
  intros H. destruct ev as [s d o|msg|e]; cbn [import_step vol_of] in *; [|injection H as <-; cbn;
    rewrite app_nil_r; reflexivity | discriminate H].
  destruct (String.prefix CD (as_posix d)).
  - destruct (mk _); [discriminate H|]. injection H as <-; cbn; rewrite app_nil_r; reflexivity.
  - destruct (is_dir h s) as [[|]|e]; cbn [bind] in H; [|injection H as <-; cbn; rewrite app_nil_r;
      reflexivity | discriminate H].
    destruct (String.prefix "/etc" (as_posix d)); injection H as <-; cbn; [rewrite app_nil_r|];
      reflexivity.
Qed.

Lemma import_loop_volumes (evs : list bound_event) :
  forall st st', import_loop CD h mk w st evs = Ok st' -> volumes st' = volumes st ++ flat_map vol_of evs.
Proof.
  induction evs as [|ev evs IH]; intros st st' H; cbn [import_loop] in H.
  - injection H as <-; cbn; rewrite app_nil_r; reflexivity.
  - destruct (import_step CD h mk w st ev) as [st1|e] eqn:E; cbn [bind] in H; [|discriminate H].
    rewrite (IH _ _ H), (import_step_volumes _ _ _ E), <- app_assoc; reflexivity.
Qed.

Lemma import_step_logs_mono (st st' : import_state) (ev : bound_event) l :
  import_step CD h mk w st ev = Ok st' -> In l (logs st) -> In l (logs st').
Proof.
  intros H Hl. destruct ev as [s d o|msg|e]; cbn [import_step] in H;
    [| injection H as <-; cbn; apply in_or_app; left; exact Hl | discriminate H].
  destruct (String.prefix CD (as_posix d)).
  - destruct (mk _); [discriminate H|]. injection H as <-; cbn; apply in_or_app; left; exact Hl.
  - destruct (is_dir h s) as [[|]|e]; cbn [bind] in H; [| | discriminate H].
    + destruct (String.prefix "/etc" (as_posix d)); injection H as <-; cbn;
        [apply in_or_app; left|]; exact Hl.
    + injection H as <-; cbn; apply in_or_app; left; exact Hl.
Qed.

Lemma import_loop_logs_event (evs : list bound_event) ev l :
  In ev evs -> (forall st0 st1, import_step CD h mk w st0 ev = Ok st1 -> In l (logs st1)) ->
  forall st st', import_loop CD h mk w st evs = Ok st' -> In l (logs st').
Proof.
  intros Hin Hl.
  assert (Hmono : forall evs' st st', import_loop CD h mk w st evs' = Ok st' ->
                    In l (logs st) -> In l (logs st')).
  { induction evs' as [|e evs' IH]; intros st st' H Hst; cbn [import_loop] in H.
    - injection H as <-; exact Hst.
    - destruct (import_step CD h mk w st e) as [st1|e'] eqn:E; cbn [bind] in H; [|discriminate H].
      exact (IH _ _ H (import_step_logs_mono _ _ _ _ E Hst)). }
  induction evs as [|e evs IH]; [contradiction|]. intros st st' H; cbn [import_loop] in H.
  destruct (import_step CD h mk w st e) as [st1|e'] eqn:E; cbn [bind] in H; [|discriminate H].
  destruct Hin as [<-|Hin]; [exact (Hmono _ _ _ H (Hl _ _ E)) | exact (IH Hin _ _ H)].
Qed.

Lemma import_loop_total (evs : list bound_event) :
  (forall ev, In ev evs -> forall st, exists st', import_step CD h mk w st ev = Ok st') ->
  forall st, exists st', import_loop CD h mk w st evs = Ok st'.
Proof.
  induction evs as [|ev evs IH]; intros Hok st; cbn [import_loop]; [eexists; reflexivity|].
  destruct (Hok ev (or_introl eq_refl) st) as [st1 E]; rewrite E; cbn [bind].
  exact (IH (fun ev' H => Hok ev' (or_intror H)) st1).
Qed.

End Volumes.

(** C5: when [_setup_import] returns, its [--volume] pairs start with the
    staging directory; every other pair comes from a bound directory whose
    destination is neither under [CONTAINER_DIR] nor starts with "/etc",
    and every such directory gets its pair; a directory bound under "/etc"
    logs an error, a non-directory outside [CONTAINER_DIR] a warning, and
    the loop carries on.  It does return when no [exists()] of [bound]
    raises and no [os.makedirs] does. *)
Theorem shifter_volumes (CD : string) (h : fs) (mk : path -> option exn) (where_ : path)
  (c : container) :
  String.prefix "/etc" CD = false ->
  (forall st, setup_loop CD h mk where_ c = Ok st ->
    (exists rest, volumes st = (as_posix where_, CD) :: rest)
    /\ (forall s d, In (s, d) (volumes st) ->
          String.prefix "/etc" d = false
          /\ ((s, d) = (as_posix where_, CD)
              \/ exists src dst o, In (src, dst, o) (yielded (bound h c))
                   /\ s = as_posix src /\ d = as_posix dst
                   /\ is_dir h src = Ok true /\ String.prefix CD d = false))
    /\ (forall src dst o, In (src, dst, o) (yielded (bound h c)) ->
          String.prefix CD (as_posix dst) = false ->
          (is_dir h src = Ok true -> String.prefix "/etc" (as_posix dst) = false ->
             In (as_posix src, as_posix dst) (volumes st))
          /\ (is_dir h src = Ok true -> String.prefix "/etc" (as_posix dst) = true ->
                In (LError etc_error) (logs st))
          /\ (is_dir h src = Ok false -> In (LWarning (file_binding_warning src)) (logs st))))
  /\ ((forall d data, In (d, data) (bound_files c) -> exists b, exists_ h (bf_path data) = Ok b) ->
      (forall p, mk p = None) ->
      exists st, setup_loop CD h mk where_ c = Ok st).
Proof.
  intros Hcd. split.
  - intros st Hst.
    assert (Hv : volumes st = (as_posix where_, CD) :: flat_map (vol_of CD h) (bound h c)).
    { unfold setup_loop in Hst; rewrite (import_loop_volumes _ _ _ _ _ _ _ Hst); reflexivity. }
    split; [eexists; exact Hv|]. split.
    + intros s d Hin. rewrite Hv in Hin. destruct Hin as [Hin|Hin].
      * injection Hin as <- <-; split; [exact Hcd | left; reflexivity].
      * apply in_flat_map in Hin as ([src dst o|msg|e] & Hev & Hin); cbn in Hin;
          [|contradiction|contradiction].
        destruct (String.prefix CD (as_posix dst)) eqn:E1; [contradiction|].
        destruct (is_dir h src) as [[|]|e] eqn:E2; try contradiction.
        destruct (String.prefix "/etc" (as_posix dst)) eqn:E3; [contradiction|].
        destruct Hin as [Hin|[]]; injection Hin as <- <-.
        split; [exact E3|right]. exists src, dst, o.
        repeat split; try assumption. apply yielded_In; exact Hev.
    + intros src dst o Hy Hcd'. apply yielded_In in Hy.
      split; [|split].
      * intros Hd He. rewrite Hv; right. apply in_flat_map; exists (BYield src dst o).
        split; [exact Hy|]. cbn; rewrite Hcd', Hd, He; left; reflexivity.
      * intros Hd He. unfold setup_loop in Hst.
        refine (import_loop_logs_event CD h mk where_ _ (BYield src dst o) _ Hy _ _ _ Hst).
        intros st0 st1 E; cbn [import_step] in E; rewrite Hcd', Hd in E; cbn [bind] in E;
          rewrite He in E. injection E as <-; cbn. apply in_or_app; right; left; reflexivity.
      * intros Hd. unfold setup_loop in Hst.
        refine (import_loop_logs_event CD h mk where_ _ (BYield src dst o) _ Hy _ _ _ Hst).
        intros st0 st1 E; cbn [import_step] in E; rewrite Hcd', Hd in E; cbn [bind] in E.
        injection E as <-; cbn. apply in_or_app; right; left; reflexivity.
  - intros Hok Hmk. unfold setup_loop. apply import_loop_total.
    intros [s d o|msg|e] Hin st; cbn [import_step].
    + destruct (String.prefix CD (as_posix d)); [rewrite Hmk; eexists; reflexivity|].
      destruct (exists_is_dir h s (bound_loop_yield h _ s d o Hin)) as [b ->]; cbn [bind].
      destruct b; [destruct (String.prefix "/etc" (as_posix d))|]; eexists; reflexivity.
    + eexists; reflexivity.
    + exfalso; exact (bound_loop_no_raise h _ e Hok Hin).
Qed.

Lemma shifter_volumes_witness :
  exists st,
    setup_loop "/.e4s-cl" Samples.demo_fs (fun _ => None) Samples.demo_stage Samples.demo_container
      = Ok st
    /\ volumes st = [("/tmp/stage"%string, "/.e4s-cl"%string); ("/data"%string, "/data"%string)]
    /\ In (LError etc_error) (logs st)
    /\ In (LWarning (file_binding_warning (parse_path "/home/u/x.so"))) (logs st).
Proof.
  destruct (shifter_volumes "/.e4s-cl" Samples.demo_fs (fun _ => None) Samples.demo_stage
              Samples.demo_container eq_refl) as [H Htot].
  destruct Htot as [st Hst].
  { intros d data Hin. vm_compute in Hin.
    repeat (destruct Hin as [Hin|Hin]; [injection Hin as <- <-; eexists; vm_compute; reflexivity|]).
    contradiction. }
  { reflexivity. }
  exists st; split; [exact Hst|].
  destruct (H st Hst) as [_ [_ H3]].
  split; [vm_compute in Hst; injection Hst as <-; reflexivity|]. split.
  - apply (proj1 (proj2 (H3 (parse_path "/srv/conf") (parse_path "/etc/conf") READ_ONLY
                             ltac:(vm_compute; tauto) eq_refl))); vm_compute; reflexivity.
  - apply (proj2 (proj2 (H3 (parse_path "/home/u/x.so") (parse_path "/opt/x.so") READ_ONLY
                             ltac:(vm_compute; tauto) eq_refl))); vm_compute; reflexivity.
Defined.

End ShifterProofs.

Module ContainerProofs.
Import Paths Containers ListSpec.

(** *** get_data *)

(** C6 (amended): [get_data] raises when the introspection run returns a
    non-zero code ([AnalysisError], and only then) or when the output it
    wrote is not valid UTF-8 ([UnicodeDecodeError] of the strict
    [.decode()]); on code 0 with valid output it raises nothing and records
    the decoded text as the libc version.  An exception of [run] itself
    propagates unchanged. *)
Theorem get_data_outcomes (r : run_outcome) :
  (forall code out c', r = RunReturned code out c' ->
     ((exists e, get_data r = Err e) <-> code <> 0 \/ utf8_decode out = None)
     /\ ((exists k, get_data r = Err (AnalysisError k)) <-> code <> 0)
     /\ (code <> 0 -> get_data r = Err (AnalysisError code))
     /\ (code = 0 -> utf8_decode out = None -> get_data r = Err UnicodeDecodeError)
     /\ (forall s, code = 0 -> utf8_decode out = Some s ->
           get_data r = Ok (set_libc_v c' s) /\ libc_v (set_libc_v c' s) = s))
  /\ (forall e, r = RunRaised e -> get_data r = Err e).
Proof.
  split; [|intros e ->; reflexivity].
  intros code out c' ->. unfold get_data.
  destruct (Z.eqb_spec code 0) as [->|Hne]; cbn [negb].
  - destruct (utf8_decode out) as [s|] eqn:Ed.
    + split; [split; [intros [e He]; discriminate He | intros [H|H]; [contradiction H; reflexivity
                                                                      | discriminate H]]|].
      split; [split; [intros [k Hk]; discriminate Hk | intros H; contradiction H; reflexivity]|].
      split; [intros H; contradiction H; reflexivity|]. split; [intros _ H; discriminate H|].
      intros s' _ Hs; injection Hs as <-; split; reflexivity.
    + split; [split; [intros _; right; reflexivity | intros _; eexists; reflexivity]|].
      split; [split; [intros [k Hk]; discriminate Hk | intros H; contradiction H; reflexivity]|].
      split; [intros H; contradiction H; reflexivity|]. split; [intros _ _; reflexivity|].
      intros s _ Hs; discriminate Hs.
  - split; [split; [intros _; left; exact Hne | intros _; eexists; reflexivity]|].
    split; [split; [intros _; exact Hne | intros _; eexists; reflexivity]|].
    split; [intros _; reflexivity|]. split; [intros H; contradiction|].
    intros s H; contradiction.
Qed.

Lemma get_data_outcomes_witness :
  get_data (RunReturned 1 [] (init_container "img"%string)) = Err (AnalysisError 1)
  /\ get_data (RunReturned 0 (lit "ldd (GNU libc) 2.28") (init_container "img"%string))
     = Ok (set_libc_v (init_container "img"%string) (lit "ldd (GNU libc) 2.28")).
Proof.
  destruct (get_data_outcomes (RunReturned 1 [] (init_container "img"%string))) as [H _].
  destruct (H 1 [] (init_container "img"%string) eq_refl) as [_ [_ [H1 _]]].
  destruct (get_data_outcomes (RunReturned 0 (lit "ldd (GNU libc) 2.28") (init_container "img"%string)))
    as [H' _].
  destruct (H' 0 (lit "ldd (GNU libc) 2.28") (init_container "img"%string) eq_refl)
    as [_ [_ [_ [_ H2]]]].
  split; [apply H1; discriminate|].
  apply (H2 (lit "ldd (GNU libc) 2.28") eq_refl); vm_compute; reflexivity.
Defined.

(** C6 (counterexample): code 0 with the byte [0xff] on the output makes
    [get_data] raise [UnicodeDecodeError]. *)
Lemma get_data_raises_on_bad_utf8 :
  get_data (RunReturned 0 [255] (init_container "img"%string)) = Err UnicodeDecodeError.
Proof. vm_compute; reflexivity. Qed.

(** *** bound *)

Definition exists_true (h : fs) (kv : path * BoundFile) : bool :=
  match exists_ h (bf_path (snd kv)) with Ok true => true | _ => false end.

Lemma bound_loop_total (h : fs) (entries : list (path * BoundFile)) :
  (forall d data, In (d, data) entries -> exists b, exists_ h (bf_path data) = Ok b) ->
  length (bound_loop h entries) = length entries
  /\ yielded (bound_loop h entries)
     = map (fun kv => (bf_path (snd kv), fst kv, bf_option (snd kv))) (filter (exists_true h) entries).
Proof.
  induction entries as [|[p data] entries IH]; intros Hok; [split; reflexivity|].
  destruct (IH (fun d data' H => Hok d data' (or_intror H))) as [IH1 IH2].
  destruct (Hok p data (or_introl eq_refl)) as [b Eb].
  cbn [bound_loop filter]; unfold exists_true at 1; cbn [snd]; rewrite Eb.
  destruct b; cbn [length yielded map]; rewrite ?IH1, ?IH2; split; reflexivity.
Qed.

(** C7 (amended): [bound] yields only entries whose source exists; an
    entry whose source is missing logs a warning naming the source and the
    destination, and the iteration goes on; but an [OSError] that
    [exists()] re-raises (any errno but [ENOENT], [ENOTDIR], [EBADF] and
    [ELOOP], e.g. [ENAMETOOLONG] or [EACCES]) ends the generator with that
    exception, and no later entry is yielded.  When no [exists()] raises, [bound] has one
    step per registered bound file and yields, in dict order, exactly the
    entries whose source exists. *)
Theorem bound_outcomes (h : fs) (c : container) :
  (forall s d o, In (s, d, o) (yielded (bound h c)) -> exists_ h s = Ok true)
  /\ (forall pre d data post, bound_files c = pre ++ (d, data) :: post ->
        (forall d' data', In (d', data') pre -> exists b, exists_ h (bf_path data') = Ok b) ->
        (exists_ h (bf_path data) = Ok true ->
           bound h c = bound_loop h pre ++ BYield (bf_path data) d (bf_option data) :: bound_loop h post)
        /\ (exists_ h (bf_path data) = Ok false ->
              bound h c = bound_loop h pre ++ BWarn (bound_warning (bf_path data) d) :: bound_loop h post)
        /\ (forall e, exists_ h (bf_path data) = Err e -> bound h c = bound_loop h pre ++ [BRaise e]))
  /\ ((forall d data, In (d, data) (bound_files c) -> exists b, exists_ h (bf_path data) = Ok b) ->
        length (bound h c) = length (bound_files c)
        /\ yielded (bound h c)
           = map (fun kv => (bf_path (snd kv), fst kv, bf_option (snd kv)))
                 (filter (exists_true h) (bound_files c))
        /\ (forall d data, In (d, data) (bound_files c) -> exists_ h (bf_path data) = Ok false ->
              In (BWarn (bound_warning (bf_path data) d)) (bound h c))).
Proof.
  unfold bound. split; [|split].
  - intros s d o Hin. apply ShifterProofs.yielded_In in Hin.
    exact (ShifterProofs.bound_loop_yield h _ s d o Hin).
  - intros pre d data post Hsplit Hpre. rewrite Hsplit, (ShifterProofs.bound_loop_app h pre _ Hpre).
    cbn [bound_loop]. split; [|split].
    + intros E; rewrite E; reflexivity.
    + intros E; rewrite E; reflexivity.
    + intros e E; rewrite E; reflexivity.
  - intros Hok. destruct (bound_loop_total h _ Hok) as [H1 H2].
    split; [exact H1|]. split; [exact H2|].
    intros d data Hin Hne.
    destruct (in_split _ _ Hin) as (pre & post & Hsplit).
    assert (Hpre : forall d' data', In (d', data') pre -> exists b, exists_ h (bf_path data') = Ok b).
    { intros d' data' H'. apply (Hok d'). rewrite Hsplit. apply in_or_app; left; exact H'. }
    rewrite Hsplit, (ShifterProofs.bound_loop_app h pre _ Hpre). cbn [bound_loop]; rewrite Hne.
    apply in_or_app; right; left; reflexivity.
Qed.

Lemma bound_outcomes_witness :
  yielded (bound Samples.demo_fs Samples.demo_container)
    = [(parse_path "/data", parse_path "/data", READ_ONLY);
       (parse_path "/srv/conf", parse_path "/etc/conf", READ_ONLY);
       (parse_path "/home/u/x.so", parse_path "/opt/x.so", READ_ONLY);
       (parse_path "/usr/lib/libmpi.so", parse_path "/.e4s-cl/hostlibs/libmpi.so", READ_ONLY)]
  /\ In (BWarn (bound_warning (parse_path "/missing") (parse_path "/m")))
        (bound Samples.demo_fs Samples.demo_container).
Proof.
  destruct (bound_outcomes Samples.demo_fs Samples.demo_container) as [_ [_ H]].
  assert (Hok : forall d data, In (d, data) (bound_files Samples.demo_container) ->
                  exists b, exists_ Samples.demo_fs (bf_path data) = Ok b).
  { intros d data Hin. vm_compute in Hin.
    repeat (destruct Hin as [Hin|Hin]; [injection Hin as <- <-; eexists; vm_compute; reflexivity|]).
    contradiction. }
  destruct (H Hok) as [_ [Hy Hw]].
  split; [rewrite Hy; vm_compute; reflexivity|].
  apply (Hw (parse_path "/m") (mk_bound_file (parse_path "/missing") READ_ONLY));
    vm_compute; [tauto | reflexivity].
Defined.

(** C7 (counterexample): neither [long_path] nor [/b] exists, but
    [stat(long_path)] fails with [ENAMETOOLONG], which [exists()]
    re-raises: [bound] raises at its first step, logs no warning for
    either path, and never reaches [/b]. *)
Lemma bound_aborts_on_oserror :
  bound Samples.long_fs Samples.long_container = [BRaise (OSError ENAMETOOLONG)]
  /\ Samples.long_fs Samples.long_path = StatFailed ENAMETOOLONG
  /\ exists_ Samples.long_fs (parse_path "/b") = Ok false
  /\ ~ In (BWarn (bound_warning (parse_path "/b") (parse_path "/b")))
         (bound Samples.long_fs Samples.long_container).
Proof.
  split; [vm_compute; reflexivity|]. split; [vm_compute; reflexivity|].
  split; [vm_compute; reflexivity|].
  vm_compute. intros [H|[]]; discriminate H.
Qed.

(** *** LD_PRELOAD and LD_LIBRARY_PATH *)

Lemma str_in_spec (x : string) (l : list string) : str_in x l = true <-> In x l.
Proof.
  unfold str_in; rewrite existsb_exists; split.
  - intros (y & Hy & E); apply String.eqb_eq in E; subst; exact Hy.
  - intros H; exists x; split; [exact H | apply String.eqb_refl].
Qed.

Lemma str_in_app_r (x : string) (l : list string) : str_in x (l ++ [x]) = true.
Proof. apply str_in_spec, in_or_app; right; left; reflexivity. Qed.

(** [l] extended by [x] when [x] is new, as both [add_*] methods do. *)
Definition add_new (l : list string) (x : string) : list string :=
  if str_in x l then l else l ++ [x].

Lemma add_ld_preload_list (c : container) (p : string) :
  ld_preload (add_ld_preload c p) = add_new (ld_preload c) p.
Proof. unfold add_ld_preload, add_new; destruct (str_in p (ld_preload c)); reflexivity. Qed.

Lemma add_ld_library_path_list (c : container) (p : string) :
  ld_lib_path (add_ld_library_path c p) = add_new (ld_lib_path c) p.
Proof. unfold add_ld_library_path, add_new; destruct (str_in p (ld_lib_path c)); reflexivity. Qed.

Lemma add_new_nodup (l : list string) (x : string) : NoDup l -> NoDup (add_new l x).
Proof.
  unfold add_new; destruct (str_in x l) eqn:E; intros H; [exact H|].
  apply NoDup_app; [exact H | constructor; [intros [] | constructor] |].
  intros a Ha [Ea|[]]; subst a. apply (proj2 (str_in_spec x l)) in Ha; congruence.
Qed.

Lemma fold_add_new (ps : list string) :
  forall l, fold_left add_new ps l = l ++ fresh_in_order l ps.
Proof.
  induction ps as [|p ps IH]; intros l; cbn; [rewrite app_nil_r; reflexivity|].
  rewrite IH. unfold add_new. destruct (str_in p l); [reflexivity|].
  rewrite <- app_assoc; reflexivity.
Qed.

Lemma fold_add_ld_preload (ps : list string) :
  forall c, ld_preload (fold_left add_ld_preload ps c) = fold_left add_new ps (ld_preload c).
Proof.
  induction ps as [|p ps IH]; intros c; cbn; [reflexivity|].
  rewrite IH, add_ld_preload_list; reflexivity.
Qed.

Lemma fold_add_ld_library_path (ps : list string) :
  forall c, ld_lib_path (fold_left add_ld_library_path ps c) = fold_left add_new ps (ld_lib_path c).
Proof.
  induction ps as [|p ps IH]; intros c; cbn; [reflexivity|].
  rewrite IH, add_ld_library_path_list; reflexivity.
Qed.

Lemma bind_file_lists rl (cwd : path) (c c' : container) a dest opt :
  bind_file rl cwd c a dest opt = Ok c' -> ld_preload c' = ld_preload c /\ ld_lib_path c' = ld_lib_path c.
Proof.
  unfold bind_file. destruct (negb (truthy a)); [intros H; injection H as <-; split; reflexivity|].
  destruct dest as [d|]; [destruct (truthy d)|];
    [intros H; injection H as <-; split; reflexivity| |];
    (destruct (_unrelative rl cwd (to_path a)); cbn [bind]; [|discriminate];
     intros H; injection H as <-; split; reflexivity).
Qed.

Lemma apply_op_lists (c : container) (o : op) :
  (ld_preload (apply_op c o) = ld_preload c \/ exists p, ld_preload (apply_op c o) = add_new (ld_preload c) p)
  /\ (ld_lib_path (apply_op c o) = ld_lib_path c \/ exists p, ld_lib_path (apply_op c o) = add_new (ld_lib_path c) p).
Proof.
  destruct o as [p|p|k v|rl cwd a dest opt]; cbn.
  - split; [right; exists p; apply add_ld_preload_list | left; unfold add_ld_preload].
    destruct (str_in p (ld_preload c)); reflexivity.
  - split; [left; unfold add_ld_library_path | right; exists p; apply add_ld_library_path_list].
    destruct (str_in p (ld_lib_path c)); reflexivity.
  - split; left; reflexivity.
  - destruct (bind_file rl cwd c a dest opt) as [c'|e] eqn:E; [|split; left; reflexivity].
    destruct (bind_file_lists _ _ _ _ _ _ _ E) as [E1 E2]; split; left; assumption.
Qed.

(** C9: a second call with the same path leaves the list unchanged; a
    sequence of calls appends the new paths in the order of their first
    insertion; and along any sequence of the container operations that
    touch a container's plan, starting from a new container, both lists
    stay duplicate-free. *)
Theorem ld_lists_idempotent_dedup (c : container) (p : string) (ps : list string)
  (img : string) (ops : list op) :
  add_ld_preload (add_ld_preload c p) p = add_ld_preload c p
  /\ add_ld_library_path (add_ld_library_path c p) p = add_ld_library_path c p
  /\ ld_preload (fold_left add_ld_preload ps c) = ld_preload c ++ fresh_in_order (ld_preload c) ps
  /\ ld_lib_path (fold_left add_ld_library_path ps c)
     = ld_lib_path c ++ fresh_in_order (ld_lib_path c) ps
  /\ NoDup (ld_preload (fold_left apply_op ops (init_container img)))
  /\ NoDup (ld_lib_path (fold_left apply_op ops (init_container img))).
Proof.
  split.
  { unfold add_ld_preload at 2 3. destruct (str_in p (ld_preload c)) eqn:E.
    - unfold add_ld_preload; rewrite E; reflexivity.
    - unfold add_ld_preload; cbn [ld_preload set_ld_preload]; rewrite str_in_app_r; reflexivity. }
  split.
  { unfold add_ld_library_path at 2 3. destruct (str_in p (ld_lib_path c)) eqn:E.
    - unfold add_ld_library_path; rewrite E; reflexivity.
    - unfold add_ld_library_path; cbn [ld_lib_path set_ld_lib_path]; rewrite str_in_app_r; reflexivity. }
  split; [rewrite fold_add_ld_preload, fold_add_new; reflexivity|].
  split; [rewrite fold_add_ld_library_path, fold_add_new; reflexivity|].
  assert (H : forall c0, NoDup (ld_preload c0) /\ NoDup (ld_lib_path c0) ->
                NoDup (ld_preload (fold_left apply_op ops c0))
                /\ NoDup (ld_lib_path (fold_left apply_op ops c0))).
  { induction ops as [|o ops IH]; intros c0 [H1 H2]; cbn; [split; assumption|].
    apply IH. destruct (apply_op_lists c0 o) as [[E1|[q E1]] [E2|[q' E2]]];
      rewrite ?E1, ?E2; split; try assumption; apply add_new_nodup; assumption. }
  apply H; split; constructor.
Qed.

Lemma ld_lists_idempotent_dedup_witness :
  ld_preload (add_ld_preload (add_ld_preload (init_container "img"%string) "/l/a.so"%string) "/l/a.so"%string)
    = ["/l/a.so"%string]
  /\ NoDup (ld_preload (fold_left apply_op [AddLdPreload "/l/a.so"; BindEnvVar "K" "V";
                                             AddLdPreload "/l/b.so"; AddLdPreload "/l/a.so"]
                                    (init_container "img"%string))).
Proof.
  destruct (ld_lists_idempotent_dedup (init_container "img"%string) "/l/a.so"%string []
              "img"%string [AddLdPreload "/l/a.so"; BindEnvVar "K" "V";
                            AddLdPreload "/l/b.so"; AddLdPreload "/l/a.so"])
    as [H1 [_ [_ [_ [H5 _]]]]].
  split; [rewrite H1; reflexivity | exact H5].
Defined.

End ContainerProofs.

Module AnalyzeProofs.
Import Analyze.

Lemma environ_get_absent (environ : list (string * string)) (key default : string) :
  ~ In key (map fst environ) -> environ_get environ key default = default.
Proof.
  induction environ as [|[k v] environ IH]; intros H; cbn; [reflexivity|].
  destruct (String.eqb_spec k key) as [->|_]; [exfalso; apply H; left; reflexivity|].
  apply IH; intros H'; apply H; right; exact H'.
Qed.

Section WithLibraries.
Variable LibrarySet : Type.
Variable empty_set : LibrarySet.
Variable rpath runpath : LibrarySet -> list string.
Variable resolve : string -> list string -> list string -> option string.
Variable GuestLibrary : Type.
Variable load_guest_library : string -> result GuestLibrary.
Variable add : LibrarySet -> GuestLibrary -> LibrarySet.
Variable json_dumps : LibrarySet -> string.
Variable fd_open : Z -> bool.

Let loop := resolve_loop LibrarySet rpath runpath resolve GuestLibrary load_guest_library add.
Let run_main := main LibrarySet empty_set rpath runpath resolve GuestLibrary load_guest_library
                  add json_dumps fd_open.

(** C10 (amended): with [__E4S_CL_JSON_FD] absent or equal to "-1",
    [main] raises [InternalError] and writes nothing once the soname loop
    has completed; an exception of that loop (opening or parsing a
    resolved library) propagates first, also writing nothing; a soname
    that does not resolve is skipped with no effect on the library set
    that is serialised. *)
Theorem analyze_main_no_fd :
  (forall libraries environ cache,
     loop empty_set libraries = Ok cache ->
     (~ In "__E4S_CL_JSON_FD"%string (map fst environ)
      \/ environ_get environ "__E4S_CL_JSON_FD" "-1" = "-1"%string) ->
     run_main libraries environ
     = (Err (InternalError "No file descriptor set to send data !"), []))
  /\ (forall libraries environ e,
        loop empty_set libraries = Err e -> run_main libraries environ = (Err e, []))
  /\ (forall cache soname rest,
        resolve soname (rpath cache) (runpath cache) = None ->
        loop cache (soname :: rest) = loop cache rest).
Proof.
  split; [|split].
  - intros libraries environ cache Hloop Henv.
    unfold run_main, main; fold loop; rewrite Hloop.
    assert (E : environ_get environ "__E4S_CL_JSON_FD" "-1" = "-1"%string).
    { destruct Henv as [H|H]; [apply environ_get_absent; exact H | exact H]. }
    rewrite E; reflexivity.
  - intros libraries environ e Hloop. unfold run_main, main; fold loop; rewrite Hloop; reflexivity.
  - intros cache soname rest H. unfold loop; cbn; rewrite H; reflexivity.
Qed.

End WithLibraries.

(** A guest where only "libmpi.so.12" resolves, and opening it is denied. *)
Definition denied_resolve (soname : string) (_ _ : list string) : option string :=
  if String.eqb soname "libmpi.so.12" then Some "/usr/lib64/libmpi.so.12"%string else None.

Lemma analyze_main_no_fd_witness :
  main (list string) [] (fun _ => []) (fun _ => []) (fun _ _ _ => None) string
       (fun p => Ok p) (fun c l => c ++ [l]) (String.concat ",") (fun _ => true)
       ["libfoo.so"%string] []
  = (Err (InternalError "No file descriptor set to send data !"), []).
Proof.
  destruct (analyze_main_no_fd (list string) [] (fun _ => []) (fun _ => []) (fun _ _ _ => None)
              string (fun p => Ok p) (fun c l => c ++ [l]) (String.concat ",") (fun _ => true))
    as [H _].
  apply (H ["libfoo.so"%string] [] []); [reflexivity | left; intros []].
Defined.

(** C10 (counterexample): the variable is absent, but a requested soname
    resolves to a library that cannot be opened: [main] raises
    [PermissionError], not [InternalError]. *)
Lemma analyze_main_raises_before_fd_check :
  main (list string) [] (fun _ => []) (fun _ => []) denied_resolve string
       (fun _ => Err PermissionError) (fun c l => c ++ [l]) (String.concat ",") (fun _ => true)
       ["libmpi.so.12"%string] []
  = (Err PermissionError, []).
Proof. vm_compute. reflexivity. Qed.

End AnalyzeProofs.

Module PyTextFacts.
Import PyText.
Local Open Scope string_scope.

Lemma str_app_assoc (a b c : string) : (a ++ b) ++ c = a ++ (b ++ c).
Proof. induction a as [|x a IH]; cbn; [reflexivity | rewrite IH; reflexivity]. Qed.

Lemma str_app_nil_r (a : string) : a ++ EmptyString = a.
Proof. induction a as [|x a IH]; cbn; [reflexivity | rewrite IH; reflexivity]. Qed.

Lemma ends_with_cons (c x : ascii) (s : string) :
  s <> EmptyString -> ends_with_ch c (String x s) = ends_with_ch c s.
Proof. destruct s; [congruence | reflexivity]. Qed.

Lemma ends_with_nonempty (c : ascii) (s : string) : ends_with_ch c s = true -> s <> EmptyString.
Proof. destruct s; [discriminate | congruence]. Qed.

Lemma ends_with_app (c : ascii) (a b : string) :
  b <> EmptyString -> ends_with_ch c (a ++ b) = ends_with_ch c b.
Proof.
  intros Hb; induction a as [|x a IH]; cbn [append]; [reflexivity|].
  rewrite ends_with_cons; [exact IH|].
  destruct a; cbn; [exact Hb | congruence].
Qed.

Lemma rstrip_not_end (s : string) :
  ends_with_ch backslash (rstrip_by is_backslash s) = false.
Proof.
  induction s as [|x s IH]; cbn [rstrip_by]; [reflexivity|].
  destruct (rstrip_by is_backslash s) as [|y r] eqn:E.
  - unfold is_backslash; destruct (Ascii.eqb x backslash) eqn:Ex; cbn; [reflexivity | exact Ex].
  - rewrite ends_with_cons by congruence; exact IH.
Qed.

Lemma rstrip_app (a b : string) :
  ends_with_ch backslash a = false ->
  rstrip_by is_backslash (a ++ b) = a ++ rstrip_by is_backslash b.
Proof.
  induction a as [|x a IH]; intros Ha; cbn [append rstrip_by]; [reflexivity|].
  destruct a as [|y a'].
  - cbn [ends_with_ch] in Ha. cbn [append]. idtac.
    destruct (rstrip_by is_backslash b); [unfold is_backslash; rewrite Ha|]; reflexivity.
  - rewrite ends_with_cons in Ha by congruence.
    rewrite (IH Ha); reflexivity.
Qed.

(** [s.split(c)] is never empty. *)
Lemma split_ch_nonempty (c : ascii) (s : string) : split_ch c s <> [].
Proof.
  induction s as [|x s IH]; cbn; [congruence|].
  destruct (Ascii.eqb x c); [congruence|].
  destruct (split_ch c s); congruence.
Qed.

Lemma split_ch_app (c : ascii) (a b : string) :
  split_ch c (a ++ String c b) = app (split_ch c a) (split_ch c b).
Proof.
  induction a as [|x a IH]; cbn.
  - rewrite Ascii.eqb_refl; reflexivity.
  - destruct (Ascii.eqb x c); [rewrite IH; reflexivity|].
    rewrite IH. destruct (split_ch c a) as [|h t] eqn:E; [exfalso; exact (split_ch_nonempty c a E)|].
    reflexivity.
Qed.

Lemma split_ch_no (c : ascii) (s : string) : has_ch c s = false -> split_ch c s = [s].
Proof.
  induction s as [|x s IH]; cbn; [reflexivity|].
  intros H; apply orb_false_iff in H as [H1 H2]. rewrite H1, (IH H2); reflexivity.
Qed.

Lemma split_ch_nth1 (c : ascii) (s : string) :
  nth_error (split_ch c s) 1 = None <-> has_ch c s = false.
Proof.
  split.
  - induction s as [|x s IH]; cbn; [reflexivity|].
    destruct (Ascii.eqb x c) eqn:E; cbn.
    + destruct (split_ch c s) as [|h t] eqn:Es; [exfalso; exact (split_ch_nonempty c s Es) | discriminate].
    + destruct (split_ch c s) as [|h t] eqn:Es; [exfalso; exact (split_ch_nonempty c s Es)|].
      cbn; intros H; apply IH; exact H.
  - intros H; rewrite split_ch_no by exact H; reflexivity.
Qed.

(** [sep.join(xs).split(sep)] for a one-character [sep]. *)
Lemma split_ch_concat (c : ascii) (xs : list string) :
  xs <> [] -> split_ch c (String.concat (String c EmptyString) xs) = flat_map (split_ch c) xs.
Proof.
  induction xs as [|x xs IH]; intros H; [congruence|].
  destruct xs as [|y ys].
  - cbn; rewrite app_nil_r; reflexivity.
  - change (String.concat (String c EmptyString) (x :: y :: ys))
      with (x ++ String c (String.concat (String c EmptyString) (y :: ys))).
    rewrite split_ch_app, IH by congruence; reflexivity.
Qed.

Lemma split1_ch_no (c : ascii) (s : string) : has_ch c s = false -> split1_ch c s = [s].
Proof.
  induction s as [|x s IH]; cbn; [reflexivity|].
  intros H; apply orb_false_iff in H as [H1 H2]. rewrite H1, (IH H2); reflexivity.
Qed.

Lemma split1_ch_app (c : ascii) (k v : string) :
  has_ch c k = false -> split1_ch c (k ++ String c v) = [k; v].
Proof.
  induction k as [|x k IH]; cbn; intros H.
  - rewrite Ascii.eqb_refl; reflexivity.
  - apply orb_false_iff in H as [H1 H2]. rewrite H1, (IH H2); reflexivity.
Qed.

Lemma has_ch_split (c : ascii) (s : string) :
  has_ch c s = true -> exists k v, s = k ++ String c v /\ has_ch c k = false.
Proof.
  induction s as [|x s IH]; cbn; [discriminate|].
  intros H. destruct (Ascii.eqb x c) eqn:E.
  - apply Ascii.eqb_eq in E; subst x. exists EmptyString, s; split; reflexivity.
  - destruct (IH H) as (k & v & -> & Hk). exists (String x k), v; split; [reflexivity|].
    cbn; rewrite E, Hk; reflexivity.
Qed.

Lemma split_ch_two (c : ascii) (k v : string) :
  has_ch c k = false -> has_ch c v = false -> split_ch c (k ++ String c v) = [k; v].
Proof.
  intros Hk Hv; rewrite split_ch_app, !split_ch_no by assumption; reflexivity.
Qed.

(** [d.update({k: v})] on a [str]-keyed dict, read back. *)
Lemma sget_update (d : list (string * string)) (k v k' : string) :
  sget (Containers.dict_update String.eqb d k v) k'
  = if String.eqb k k' then Some v else sget d k'.
Proof.
  induction d as [|[k0 v0] d IH]; cbn.
  - reflexivity.
  - destruct (String.eqb k0 k) eqn:E0.
    + apply String.eqb_eq in E0; subst k0. cbn. destruct (String.eqb k k'); reflexivity.
    + cbn. rewrite IH. destruct (String.eqb k0 k') eqn:E1; [|reflexivity].
      apply String.eqb_eq in E1; subst k0. rewrite String.eqb_sym, E0; reflexivity.
Qed.

Lemma update_keys (d : list (string * string)) (k v : string) x :
  In x (map fst (Containers.dict_update String.eqb d k v)) <-> In x (map fst d) \/ x = k.
Proof.
  induction d as [|[k0 v0] d IH]; cbn.
  - intuition.
  - destruct (String.eqb k0 k) eqn:E.
    + apply String.eqb_eq in E; subst k0; cbn; intuition.
    + cbn; rewrite IH; intuition.
Qed.

Lemma update_nodup (d : list (string * string)) (k v : string) :
  NoDup (map fst d) -> NoDup (map fst (Containers.dict_update String.eqb d k v)).
Proof.
  induction d as [|[k0 v0] d IH]; cbn; intros H.
  - constructor; [intros [] | constructor].
  - inversion H as [|? ? Hn Hd]; subst.
    destruct (String.eqb k0 k) eqn:E; cbn; [exact H|].
    constructor; [|exact (IH Hd)].
    rewrite update_keys; intros [H'|H']; [exact (Hn H')|].
    subst; rewrite String.eqb_refl in E; discriminate.
Qed.

Lemma merge_nodup (d e : list (string * string)) :
  NoDup (map fst d) -> NoDup (map fst (dict_merge d e)).
Proof.
  unfold dict_merge; revert d; induction e as [|kv e IH]; intros d H; cbn; [exact H|].
  apply IH, update_nodup, H.
Qed.

(** The last entry for a key wins. *)
Lemma merge_last (d pre post : list (string * string)) (k v : string) :
  (forall kv, In kv post -> fst kv <> k) ->
  sget (dict_merge d (app pre ((k, v) :: post))) k = Some v.
Proof.
  unfold dict_merge; rewrite fold_left_app; cbn.
  generalize (fold_left (fun m kv => Containers.dict_update String.eqb m (fst kv) (snd kv)) pre d).
  intros d0 Hpost. rewrite <- (app_nil_l post) in Hpost.
  assert (H : forall d1, sget d1 k = Some v ->
    sget (fold_left (fun m kv => Containers.dict_update String.eqb m (fst kv) (snd kv)) post d1) k
    = Some v).
  { clear d0. induction post as [|[k1 v1] post IH]; intros d1 H1; cbn; [exact H1|].
    apply IH; [intros kv Hkv; apply Hpost; right; exact Hkv|].
    rewrite sget_update. destruct (String.eqb k1 k) eqn:E; [|exact H1].
    apply String.eqb_eq in E; exfalso; apply (Hpost (k1, v1)); [left; reflexivity | exact E]. }
  apply H. rewrite sget_update, String.eqb_refl; reflexivity.
Qed.

Lemma merge_absent (d e : list (string * string)) (k : string) :
  (forall kv, In kv e -> fst kv <> k) -> sget (dict_merge d e) k = sget d k.
Proof.
  unfold dict_merge; revert d; induction e as [|[k1 v1] e IH]; intros d H; cbn; [reflexivity|].
  rewrite IH by (intros kv Hkv; apply H; right; exact Hkv).
  rewrite sget_update. destruct (String.eqb k1 k) eqn:E; [|reflexivity].
  apply String.eqb_eq in E; exfalso; exact (H (k1, v1) (or_introl eq_refl) E).
Qed.




End PyTextFacts.

Module ShifterConfigProofs.
Import PyText PyTextFacts ShifterConfig.
Local Open Scope string_scope.

Lemma deprettify_out (ls : list string) :
  forall buffer x, In x (deprettify_loop buffer ls) -> ends_with_ch backslash x = false.
Proof.
  induction ls as [|l ls IH]; intros b x H; cbn [deprettify_loop] in H; [contradiction|].
  destruct (ends_with_ch backslash (b ++ l)) eqn:E.
  - exact (IH _ _ H).
  - destruct H as [<-|H]; [exact E | exact (IH _ _ H)].
Qed.

Lemma deprettify_id (ls : list string) :
  (forall l, In l ls -> ends_with_ch backslash l = false) -> deprettify_loop EmptyString ls = ls.
Proof.
  induction ls as [|l ls IH]; intros H; cbn [deprettify_loop append]; [reflexivity|].
  rewrite (H l (or_introl eq_refl)), IH by (intros l' Hl'; apply H; right; exact Hl').
  reflexivity.
Qed.

Lemma deprettify_drop (ls : list string) (l : string) :
  ends_with_ch backslash l = true ->
  forall buffer, deprettify_loop buffer (ls ++ [l]) = deprettify_loop buffer ls.
Proof.
  intros Hl; induction ls as [|x ls IH]; intros b; cbn [deprettify_loop app].
  - rewrite ends_with_app, Hl by exact (ends_with_nonempty _ _ Hl); reflexivity.
  - destruct (ends_with_ch backslash (b ++ x)); rewrite IH; reflexivity.
Qed.

Lemma deprettify_fuse (ls : list string) (l1 l2 : string) (rest : list string) :
  ends_with_ch backslash l1 = true ->
  forall buffer, ends_with_ch backslash buffer = false ->
  deprettify_loop buffer (ls ++ l1 :: l2 :: rest)
  = deprettify_loop buffer (ls ++ (rstrip_by is_backslash l1 ++ l2) :: rest).
Proof.
  intros Hl1; induction ls as [|x ls IH]; intros b Hb; cbn [deprettify_loop app].
  - rewrite ends_with_app, Hl1 by exact (ends_with_nonempty _ _ Hl1).
    rewrite rstrip_app by exact Hb. rewrite str_app_assoc. reflexivity.
  - destruct (ends_with_ch backslash (b ++ x)).
    + apply IH, rstrip_not_end.
    + f_equal; apply IH; reflexivity.
Qed.

(** The entries and the warnings of [_directives_to_dict]. *)
Definition entry_list (d : string) : list (string * string) :=
  match directive_entry d with Some e => [e] | None => [] end.

Lemma directive_entries_fst (ds : list string) :
  fst (directive_entries ds) = flat_map entry_list ds.
Proof.
  induction ds as [|d ds IH]; cbn; [reflexivity|].
  destruct (directive_entries ds) as [es ws]; cbn in *.
  unfold entry_list; destruct (directive_entry d); cbn; rewrite IH; reflexivity.
Qed.

Lemma directive_entries_snd (ds : list string) :
  snd (directive_entries ds) = map unrecognized (filter (fun d => negb (has_ch "=" d)) ds).
Proof.
  induction ds as [|d ds IH]; cbn; [reflexivity|].
  destruct (directive_entries ds) as [es ws]; cbn in *.
  unfold directive_entry. destruct (has_ch "=" d) eqn:E; cbn.
  - destruct (has_ch_split _ _ E) as (k & v & -> & Hk).
    rewrite split1_ch_app by exact Hk; cbn; exact IH.
  - rewrite split1_ch_no by exact E; cbn; rewrite IH; reflexivity.
Qed.

Lemma entry_list_In (ds : list string) (k v : string) :
  In (k, v) (flat_map entry_list ds) <-> exists d, In d ds /\ directive_entry d = Some (k, v).
Proof.
  rewrite in_flat_map; unfold entry_list; split.
  - intros (d & Hd & H). exists d; split; [exact Hd|].
    destruct (directive_entry d); [destruct H as [<-|[]]; reflexivity | contradiction].
  - intros (d & Hd & H). exists d; split; [exact Hd|]. rewrite H; left; reflexivity.
Qed.

Lemma linker_path_split (config : list (string * string)) :
  linker_path config
  = option_map (fun ps => match ps with [] => [EmptyString] | _ => flat_map (split_ch ":") ps end)
               (linker_dirs config).
Proof.
  unfold linker_path. destruct (linker_dirs config) as [ps|]; cbn; [|reflexivity].
  destruct ps as [|p ps]; [reflexivity|].
  f_equal; apply split_ch_concat; congruence.
Qed.

Lemma words_dirs_none (ws : list string) :
  words_dirs ws = None
  <-> exists var, In var ws /\ String.prefix "LD_LIBRARY_PATH" var = true /\ has_ch "=" var = false.
Proof.
  induction ws as [|w ws IH]; cbn [words_dirs].
  - split; [intros F; discriminate F | intros (? & [] & _)].
  - destruct (String.prefix "LD_LIBRARY_PATH" w) eqn:Ep.
    + destruct (nth_error (split_ch "=" w) 1) as [d|] eqn:En.
      * assert (Hw : has_ch "=" w = true).
        { destruct (has_ch "=" w) eqn:Eh; [reflexivity|].
          apply split_ch_nth1 in Eh; congruence. }
        destruct (words_dirs ws) eqn:Er; cbn [option_map].
        -- split; [intros F; discriminate F|]. intros (var & [<-|Hv] & Hp & Hh); [congruence|].
           assert (F : None = Some l) by (apply eq_sym, IH; exists var; auto). discriminate.
        -- split; [intros _ | intros _; reflexivity].
           destruct (proj1 IH eq_refl) as (var & Hv & H1 & H2). exists var; split; [right; exact Hv | auto].
      * split; [intros _ | intros _; reflexivity]. exists w; split; [left; reflexivity|].
        split; [exact Ep | apply split_ch_nth1; exact En].
    + rewrite IH; split; intros (var & Hv & H1 & H2).
      * exists var; split; [right; exact Hv | auto].
      * destruct Hv as [<-|Hv]; [congruence | exists var; auto].
Qed.

Lemma modules_dirs_none (config : list (string * string)) (ms : list string) :
  modules_dirs config ms = None
  <-> exists module prepend var, In module ms
      /\ sget config ("module_" ++ module ++ "_siteEnvPrepend") = Some prepend
      /\ In var (split_ws prepend)
      /\ String.prefix "LD_LIBRARY_PATH" var = true /\ has_ch "=" var = false.
Proof.
  induction ms as [|m ms IH]; cbn [modules_dirs].
  - split; [intros F; discriminate F | intros (? & ? & ? & [] & _)].
  - assert (Here : (match sget config ("module_" ++ m ++ "_siteEnvPrepend") with
                    | Some prepend => if String.eqb prepend EmptyString then Some [] else words_dirs (split_ws prepend)
                    | None => Some []
                    end) = match sget config ("module_" ++ m ++ "_siteEnvPrepend") with
                           | Some prepend => words_dirs (split_ws prepend)
                           | None => Some []
                           end).
    { destruct (sget config _) as [p|]; [|reflexivity].
      destruct (String.eqb p EmptyString) eqn:E; [apply String.eqb_eq in E; subst; reflexivity | reflexivity]. }
    rewrite Here; clear Here.
    destruct (sget config ("module_" ++ m ++ "_siteEnvPrepend")) as [p|] eqn:Es.
    + destruct (words_dirs (split_ws p)) as [ds|] eqn:Ew.
      * destruct (modules_dirs config ms) eqn:Em; cbn [option_map].
        -- split; [intros F; discriminate F|]. intros (mo & pr & var & [<-|Hm] & Hs & Hv & H1 & H2).
           ++ rewrite Es in Hs; injection Hs as <-.
              assert (F : words_dirs (split_ws p) = None) by (apply words_dirs_none; exists var; auto).
              congruence.
           ++ assert (F : Some l = None) by (apply IH; exists mo, pr, var; auto). discriminate.
        -- split; [intros _ | intros _; reflexivity].
           destruct (proj1 IH eq_refl) as (mo & pr & var & H0 & H). exists mo, pr, var; split; [right; exact H0 | exact H].
      * split; [intros _ | intros _; reflexivity].
        destruct (proj1 (words_dirs_none _) Ew) as (var & H0 & H). exists m, p, var; split; [left; reflexivity|]; split; [exact Es|]; split; [exact H0 | exact H].
    + destruct (modules_dirs config ms) eqn:Em; cbn [option_map].
      * split; [intros F; discriminate F|]. intros (mo & pr & var & [<-|Hm] & Hs & Hv & H1 & H2); [congruence|].
        assert (F : Some l = None) by (apply IH; exists mo, pr, var; auto). discriminate.
      * split; [intros _ | intros _; reflexivity].
        destruct (proj1 IH eq_refl) as (mo & pr & var & H0 & H). exists mo, pr, var; split; [right; exact H0 | exact H].
Qed.

End ShifterConfigProofs.

Module Wi4mpiProofs.
Import Paths Containers ListSpec ContainerProofs PyText PyTextFacts Wi4mpi.
Local Open Scope string_scope.

Lemma read_cfg_blank (pre post : list string) (l : string) :
  py_strip l = EmptyString ->
  forall config, read_cfg_loop config (app pre (l :: post)) = read_cfg_loop config pre.
Proof.
  intros Hl; induction pre as [|x pre IH]; intros config; cbn [read_cfg_loop app].
  - rewrite Hl; reflexivity.
  - destruct (String.eqb (py_strip x) EmptyString); [reflexivity|].
    destruct (String.prefix "#" (py_strip x) || negb (has_ch "=" (py_strip x))); [apply IH|].
    destruct (split_ch "=" (py_strip x)) as [|k [|v [|? ?]]]; apply IH.
Qed.

Lemma read_cfg_skip (pre post : list string) (l : string) :
  py_strip l <> EmptyString ->
  (String.prefix "#" (py_strip l) = true \/ (forall k v, split_ch "=" (py_strip l) <> [k; v])) ->
  forall config, read_cfg_loop config (app pre (l :: post)) = read_cfg_loop config (app pre post).
Proof.
  intros Hne Hs; induction pre as [|x pre IH]; intros config; cbn [read_cfg_loop app].
  - apply String.eqb_neq in Hne; rewrite Hne.
    destruct Hs as [Hs|Hs].
    + rewrite Hs; reflexivity.
    + destruct (String.prefix "#" (py_strip l) || negb (has_ch "=" (py_strip l))); [reflexivity|].
      destruct (split_ch "=" (py_strip l)) as [|k [|v [|? ?]]] eqn:E; try reflexivity.
      exfalso; exact (Hs k v eq_refl).
  - destruct (String.eqb (py_strip x) EmptyString); [reflexivity|].
    destruct (String.prefix "#" (py_strip x) || negb (has_ch "=" (py_strip x))); [apply IH|].
    destruct (split_ch "=" (py_strip x)) as [|k [|v [|? ?]]]; apply IH.
Qed.

Lemma read_cfg_app (pre rest : list string) :
  (forall x, In x pre -> py_strip x <> EmptyString) ->
  forall config, read_cfg_loop config (app pre rest) = read_cfg_loop (read_cfg_loop config pre) rest.
Proof.
  induction pre as [|x pre IH]; intros H config; cbn [read_cfg_loop app]; [reflexivity|].
  assert (Hx : String.eqb (py_strip x) EmptyString = false)
    by (apply String.eqb_neq, H; left; reflexivity).
  assert (H' : forall y, In y pre -> py_strip y <> EmptyString) by (intros y Hy; apply H; right; exact Hy).
  rewrite Hx.
  destruct (String.prefix "#" (py_strip x) || negb (has_ch "=" (py_strip x))); [apply IH, H'|].
  destruct (split_ch "=" (py_strip x)) as [|k [|v [|? ?]]]; apply IH, H'.
Qed.

Lemma read_cfg_absent (ls : list string) (k : string) :
  (forall x, In x ls -> forall v, split_ch "=" (py_strip x) <> [k; v]) ->
  forall config, sget (read_cfg_loop config ls) k = sget config k.
Proof.
  induction ls as [|x ls IH]; intros H config; cbn [read_cfg_loop]; [reflexivity|].
  assert (H' : forall y, In y ls -> forall v, split_ch "=" (py_strip y) <> [k; v])
    by (intros y Hy; apply H; right; exact Hy).
  destruct (String.eqb (py_strip x) EmptyString); [reflexivity|].
  destruct (String.prefix "#" (py_strip x) || negb (has_ch "=" (py_strip x))); [apply IH, H'|].
  destruct (split_ch "=" (py_strip x)) as [|k' [|v [|? ?]]] eqn:E; try (apply IH, H').
  rewrite (IH H'), sget_update.
  destruct (String.eqb k' k) eqn:Ek; [|reflexivity].
  apply String.eqb_eq in Ek; subst k'.
  exfalso; exact (H x (or_introl eq_refl) v E).
Qed.

Lemma prefix_hash_eq (k v : string) :
  String.prefix "#" k = false -> String.prefix "#" (k ++ String "=" v) = false.
Proof.
  destruct k as [|a k]; intros H; [reflexivity|].
  revert H; cbn [append String.prefix].
  destruct (ascii_dec "#" a); [intros H; destruct k; discriminate H | auto].
Qed.

Lemma has_ch_app_eq (k v : string) : has_ch "=" (k ++ String "=" v) = true.
Proof.
  induction k as [|a k IH]; cbn [append has_ch]; [reflexivity|].
  rewrite IH, orb_true_r; reflexivity.
Qed.









End Wi4mpiProofs.

Module Wi4mpiThms.
Import Paths Containers ListSpec ContainerProofs PyText PyTextFacts Wi4mpi Wi4mpiProofs.
Local Open Scope string_scope.

(** [__read_cfg] reads up to the first line that is blank once stripped
    (what follows it is never read), and a non-blank line that is a
    comment, or that does not split at ['='] into exactly two parts, is
    skipped. *)
Theorem read_cfg_loop_lines (pre post : list string) (l : string) (config : list (string * string)) :
  (py_strip l = EmptyString -> read_cfg_loop config (app pre (l :: post)) = read_cfg_loop config pre)
  /\ (py_strip l <> EmptyString ->
      (String.prefix "#" (py_strip l) = true \/ (forall k v, split_ch "=" (py_strip l) <> [k; v])) ->
      read_cfg_loop config (app pre (l :: post)) = read_cfg_loop config (app pre post)).
Proof.
  split; [intros H; apply read_cfg_blank, H | intros H1 H2; apply read_cfg_skip; assumption].
Qed.

(** In [__read_cfg], a line [k=v] (one ['='], [k] not starting with
    ['#']) before the first blank line, and not followed by another line
    of key [k], sets [k] to [v] with its double quotes stripped and its
    spaces kept. *)
Theorem read_cfg_value (pre post : list string) (l k v : string) :
  (forall x, In x pre -> py_strip x <> EmptyString) ->
  py_strip l = k ++ String "=" v -> has_ch "=" k = false -> has_ch "=" v = false ->
  String.prefix "#" k = false ->
  (forall x, In x post -> forall v', split_ch "=" (py_strip x) <> [k; v']) ->
  __read_cfg (Lines (app pre (l :: post))) = Ok (read_cfg_loop [] (app pre (l :: post)))
  /\ sget (read_cfg_loop [] (app pre (l :: post))) k = Some (strip_by is_dquote v).
Proof.
  intros Hpre Hl Hk Hv Hh Hpost; split; [reflexivity|].
  rewrite read_cfg_app by exact Hpre.
  generalize (read_cfg_loop [] pre) as config; intros config.
  cbn [read_cfg_loop]. rewrite Hl.
  assert (Hne : String.eqb (k ++ String "=" v) EmptyString = false) by (destruct k; reflexivity).
  rewrite Hne, prefix_hash_eq, has_ch_app_eq by exact Hh; cbn [orb negb].
  rewrite split_ch_two by assumption.
  rewrite read_cfg_absent by exact Hpost.
  rewrite sget_update, String.eqb_refl; reflexivity.
Qed.

Lemma read_cfg_value_witness :
  __read_cfg (Lines (app ["# comment"; "A=x"] (("  B=" ++ String "034" "y" ++ String "034" " ") :: ["C=z"])))
    = Ok (read_cfg_loop [] (app ["# comment"; "A=x"] (("  B=" ++ String "034" "y" ++ String "034" " ") :: ["C=z"])))
  /\ sget (read_cfg_loop [] (app ["# comment"; "A=x"] (("  B=" ++ String "034" "y" ++ String "034" " ") :: ["C=z"]))) "B"
     = Some (strip_by is_dquote (String "034" "y" ++ String "034" EmptyString)).
Proof.
  apply (read_cfg_value ["# comment"; "A=x"] ["C=z"] ("  B=" ++ String "034" "y" ++ String "034" " ")
           "B" (String "034" "y" ++ String "034" EmptyString)).
  - intros x [<-|[<-|[]]]; vm_compute; discriminate.
  - vm_compute; reflexivity.
  - vm_compute; reflexivity.
  - vm_compute; reflexivity.
  - vm_compute; reflexivity.
  - intros x [<-|[]] v'; vm_compute; discriminate.
Defined.






End Wi4mpiThms.

Module BackendsProofs.
Import Paths PyText PyTextFacts Backends.
Local Open Scope string_scope.

Lemma register_none (r : registry) (m : module_info) :
  register r m = None <-> assert_module m = None.
Proof.
  unfold register. destruct (assert_module m) as [[|]|]; [|split; congruence|split; reflexivity].
  destruct (mod_NAME m); split; congruence.
Qed.

Lemma register_all_none (ms : list module_info) :
  forall r, register_all r ms = None <-> exists m, In m ms /\ assert_module m = None.
Proof.
  induction ms as [|m ms IH]; intros r; cbn [register_all].
  - split; [discriminate | intros (? & [] & _)].
  - destruct (register r m) as [r'|] eqn:E.
    + rewrite IH. split; intros (m' & H1 & H2).
      * exists m'; split; [right; exact H1 | exact H2].
      * destruct H1 as [<-|H1]; [apply (proj2 (register_none r m)) in H2; congruence | exists m'; auto].
    + split; [intros _ | intros _; reflexivity].
      exists m; split; [left; reflexivity | apply (register_none r), E].
Qed.

Lemma register_all_app (pre rest : list module_info) :
  forall r, register_all r (app pre rest)
            = match register_all r pre with Some r1 => register_all r1 rest | None => None end.
Proof.
  induction pre as [|m pre IH]; intros r; cbn [register_all app]; [reflexivity|].
  destruct (register r m); [apply IH | reflexivity].
Qed.

Lemma register_backends (r r' : registry) (m : module_info) (name : string) :
  register r m = Some r' ->
  sget (BACKENDS r') name
  = if match assert_module m, mod_NAME m with
       | Some true, Some n => String.eqb n name
       | _, _ => false
       end
    then Some (mod_import_name m) else sget (BACKENDS r) name.
Proof.
  unfold register. destruct (assert_module m) as [[|]|]; [| intros H; injection H as <-; reflexivity | discriminate].
  destruct (mod_NAME m) as [n|]; intros H; injection H as <-; [|reflexivity].
  cbn [BACKENDS]; apply sget_update.
Qed.

Lemma register_all_absent (ms : list module_info) (name : string) :
  (forall m, In m ms -> assert_module m = Some true -> mod_NAME m <> Some name) ->
  forall r r', register_all r ms = Some r' -> sget (BACKENDS r') name = sget (BACKENDS r) name.
Proof.
  induction ms as [|m ms IH]; intros H r r' Hr; cbn [register_all] in Hr.
  - injection Hr as <-; reflexivity.
  - destruct (register r m) as [r1|] eqn:E; [|discriminate].
    rewrite (IH (fun m' Hm' => H m' (or_intror Hm')) r1 r' Hr).
    rewrite (register_backends r r1 m name E).
    destruct (assert_module m) as [[|]|] eqn:Ea; try reflexivity.
    destruct (mod_NAME m) as [n|] eqn:En; [|reflexivity].
    destruct (String.eqb n name) eqn:Eq; [|reflexivity].
    apply String.eqb_eq in Eq; subst n.
    exfalso; exact (H m (or_introl eq_refl) Ea En).
Qed.

Lemma register_exposed (r r' : registry) (m : module_info) (x : string) :
  register r m = Some r' ->
  (In x (EXPOSED_BACKENDS r')
   <-> In x (EXPOSED_BACKENDS r)
       \/ (assert_module m = Some true /\ mod_NAME m = Some x /\ mod_DEBUG_BACKEND m = false)).
Proof.
  unfold register. destruct (assert_module m) as [[|]|]; [| intros H; injection H as <-; intuition congruence | discriminate].
  destruct (mod_NAME m) as [n|]; intros H; injection H as <-; [|intuition congruence].
  cbn [EXPOSED_BACKENDS]. destruct (mod_DEBUG_BACKEND m).
  - intuition congruence.
  - rewrite in_app_iff; cbn [In]. intuition congruence.
Qed.

Lemma register_all_exposed (ms : list module_info) (x : string) :
  forall r r', register_all r ms = Some r' ->
  (In x (EXPOSED_BACKENDS r')
   <-> In x (EXPOSED_BACKENDS r)
       \/ exists m, In m ms /\ assert_module m = Some true /\ mod_NAME m = Some x
                   /\ mod_DEBUG_BACKEND m = false).
Proof.
  induction ms as [|m ms IH]; intros r r' Hr; cbn [register_all] in Hr.
  - injection Hr as <-. split; [tauto | intros [H|(? & [] & _)]; exact H].
  - destruct (register r m) as [r1|] eqn:E; [|discriminate].
    rewrite (IH r1 r' Hr), (register_exposed r r1 m x E).
    split.
    + intros [[H|H]|(m' & H1 & H2)]; [left; exact H | right; exists m; split; [left; reflexivity | exact H] |].
      right; exists m'; split; [right; exact H1 | exact H2].
    + intros [H|(m' & [<-|H1] & H2)]; [left; left; exact H | left; right; exact H2 |].
      right; exists m'; split; [exact H1 | exact H2].
Qed.

Lemma length_append_str (a b : string) : String.length (a ++ b) = (String.length a + String.length b)%nat.
Proof. induction a as [|x a IH]; cbn; [reflexivity | rewrite IH; reflexivity]. Qed.

Lemma rfind_none (c : ascii) (s : string) : has_ch c s = false -> rfind_ch c s = None.
Proof.
  induction s as [|x s IH]; cbn; [reflexivity|].
  intros H; apply orb_false_iff in H as [H1 H2]; rewrite (IH H2), H1; reflexivity.
Qed.

Lemma rfind_app (c : ascii) (a b : string) :
  rfind_ch c (a ++ b)
  = match rfind_ch c b with Some i => Some (String.length a + i)%nat | None => rfind_ch c a end.
Proof.
  induction a as [|x a IH]; cbn [append rfind_ch String.length].
  - destruct (rfind_ch c b); reflexivity.
  - rewrite IH. destruct (rfind_ch c b); reflexivity.
Qed.

Lemma substring_app (a b : string) (n : nat) :
  substring (String.length a) n (a ++ b) = substring 0 n b.
Proof. induction a as [|x a IH]; cbn; [reflexivity | exact IH]. Qed.

Lemma substring_full (b : string) : substring 0 (String.length b) b = b.
Proof. induction b as [|x b IH]; cbn; [reflexivity | rewrite IH; reflexivity]. Qed.

End BackendsProofs.

Module BackendsThms.
Import Paths PyText PyTextFacts Backends BackendsProofs.
Local Open Scope string_scope.

Lemma find_module_unique (pre post : list module_info) (m : module_info) :
  NoDup (map mod_import_name (app pre (m :: post))) ->
  find_module (app pre (m :: post)) (mod_import_name m) = Some m.
Proof.
  unfold find_module. induction pre as [|x pre IH]; intros Hnd; cbn [app find].
  - rewrite String.eqb_refl; reflexivity.
  - cbn [map app] in Hnd. apply NoDup_cons_iff in Hnd as [Hx Hnd].
    destruct (String.eqb (mod_import_name x) (mod_import_name m)) eqn:E; [|exact (IH Hnd)].
    apply String.eqb_eq in E. exfalso; apply Hx. rewrite E, map_app.
    apply in_or_app; right; left; reflexivity.
Qed.

(** The registration loop and [Container.__new__]: the import fails with
    [AttributeError] exactly when some module has a truthy [CLASS] without
    a [run] attribute; otherwise [Container(name=...)] raises
    [BackendUnsupported] when no accepted module declares [name]; with
    the last accepted module declaring [name] (a module whose [CLASS.run]
    is falsy is accepted, with a warning), it raises [BackendUnsupported]
    when that module's name is empty, builds an object of its [CLASS] when
    [CLASS] is truthy, and raises the [TypeError] of [object.__new__] when
    [CLASS] is falsy (e.g. [None]); a name is exposed exactly when an
    accepted module declaring it is not a debug backend. *)
Theorem backends_registration (ms : list module_info) :
  (register_all empty_registry ms = None <-> exists m, In m ms /\ assert_module m = None)
  /\ forall r, register_all empty_registry ms = Some r -> forall name,
     ((forall m, In m ms -> assert_module m = Some true -> mod_NAME m <> Some name) ->
      container_new ms r name = RaiseBackendUnsupported name)
     /\ (forall pre m post, ms = app pre (m :: post) ->
           assert_module m = Some true -> mod_NAME m = Some name ->
           (forall m', In m' post -> assert_module m' = Some true -> mod_NAME m' <> Some name) ->
           NoDup (map mod_import_name ms) ->
           exists cls, mod_CLASS m = Some cls
           /\ container_new ms r name
              = if String.eqb (mod_import_name m) EmptyString then RaiseBackendUnsupported name
                else if cls_truthy cls then Driver (mod_import_name m) else RaiseTypeError)
     /\ (In name (EXPOSED_BACKENDS r)
         <-> exists m, In m ms /\ assert_module m = Some true /\ mod_NAME m = Some name
                      /\ mod_DEBUG_BACKEND m = false).
Proof.
  split; [apply register_all_none|].
  intros r Hr name. split; [|split].
  - intros H. unfold container_new.
    rewrite (register_all_absent ms name H empty_registry r Hr). reflexivity.
  - intros pre m post Hms Ha Hn Hpost Hnd.
    assert (Hcls : exists cls, mod_CLASS m = Some cls).
    { unfold assert_module in Ha. destruct (mod_NAME m), (mod_CLASS m) as [cls|];
        [exists cls; reflexivity | discriminate | discriminate | discriminate]. }
    destruct Hcls as [cls Hcls]. exists cls; split; [exact Hcls|].
    rewrite Hms in Hr. rewrite register_all_app in Hr.
    destruct (register_all empty_registry pre) as [r1|]; [|discriminate].
    cbn [register_all] in Hr.
    destruct (register r1 m) as [r2|] eqn:E; [|discriminate].
    unfold container_new.
    rewrite (register_all_absent post name Hpost r2 r Hr), (register_backends r1 r2 m name E), Ha, Hn,
      String.eqb_refl.
    destruct (String.eqb (mod_import_name m) EmptyString); [reflexivity|].
    rewrite Hms in Hnd |- *. rewrite (find_module_unique pre post m Hnd), Hcls. reflexivity.
  - rewrite (register_all_exposed ms name empty_registry r Hr). cbn [EXPOSED_BACKENDS In].
    split; [intros [[]|H]; exact H | intros H; right; exact H].
Qed.

Lemma backends_registration_witness :
  register_all empty_registry
    [mk_module "e4s_cl.cf.containers.shifter" (Some "shifter") (Some (mk_class true (Some true)))
       false ["img"];
     mk_module "e4s_cl.cf.containers.dummy" (Some "dummy") (Some (mk_class false None)) false []]
  = Some (mk_registry [("shifter", "e4s_cl.cf.containers.shifter"); ("dummy", "e4s_cl.cf.containers.dummy")]
            ["shifter"; "dummy"] [("img", "shifter")])
  /\ container_new
       [mk_module "e4s_cl.cf.containers.shifter" (Some "shifter") (Some (mk_class true (Some true)))
          false ["img"];
        mk_module "e4s_cl.cf.containers.dummy" (Some "dummy") (Some (mk_class false None)) false []]
       (mk_registry [("shifter", "e4s_cl.cf.containers.shifter"); ("dummy", "e4s_cl.cf.containers.dummy")]
          ["shifter"; "dummy"] [("img", "shifter")])
       "dummy" = RaiseTypeError.
Proof.
  assert (Hr : register_all empty_registry
    [mk_module "e4s_cl.cf.containers.shifter" (Some "shifter") (Some (mk_class true (Some true)))
       false ["img"];
     mk_module "e4s_cl.cf.containers.dummy" (Some "dummy") (Some (mk_class false None)) false []]
  = Some (mk_registry [("shifter", "e4s_cl.cf.containers.shifter"); ("dummy", "e4s_cl.cf.containers.dummy")]
            ["shifter"; "dummy"] [("img", "shifter")])) by (vm_compute; reflexivity).
  split; [exact Hr|].
  destruct (proj2 (backends_registration _) _ Hr "dummy") as [_ [H _]].
  destruct (H [mk_module "e4s_cl.cf.containers.shifter" (Some "shifter")
                 (Some (mk_class true (Some true))) false ["img"]]
              (mk_module "e4s_cl.cf.containers.dummy" (Some "dummy") (Some (mk_class false None)) false [])
              [] eq_refl eq_refl eq_refl (fun m' Hm => match Hm with end))
    as [cls [Hc E]].
  { vm_compute. constructor; [intros [Hx|[]]; discriminate Hx | constructor; [intros [] | constructor]]. }
  rewrite E. injection Hc as <-. reflexivity.
Defined.

(** [PurePath.suffix] as [guess_backend] uses it: a name with no dot has
    no suffix, and a name [stem.ext] ([ext] without a dot) has suffix
    [.ext], except that an empty stem (a hidden file such as [.sif]) or an
    empty extension (a trailing dot) gives no suffix. *)
Lemma suffix_of_name_cases (name stem ext : string) :
  (has_ch "." name = false -> suffix_of_name name = EmptyString)
  /\ (has_ch "." ext = false ->
      suffix_of_name (stem ++ String "." ext)
      = if String.eqb stem EmptyString || String.eqb ext EmptyString then EmptyString
        else String "." ext).
Proof.
  split.
  - intros H; unfold suffix_of_name; rewrite (rfind_none _ _ H); reflexivity.
  - intros H; unfold suffix_of_name.
    rewrite rfind_app; cbn [rfind_ch]; rewrite (rfind_none _ _ H), Ascii.eqb_refl.
    rewrite Nat.add_0_r, length_append_str; cbn [String.length].
    replace (String.length stem + S (String.length ext) - String.length stem)%nat
      with (S (String.length ext)) by lia.
    rewrite substring_app.
    change (S (String.length ext)) with (String.length (String "." ext)); rewrite substring_full.
    destruct stem as [|a stem]; [reflexivity|].
    destruct ext as [|b ext]; cbn [String.eqb orb String.length].
    + replace (Nat.ltb (S (String.length stem)) (S (String.length stem) + 1 - 1)) with false
        by (symmetry; apply Nat.ltb_ge; lia).
      reflexivity.
    + replace (Nat.ltb (S (String.length stem)) (S (String.length stem) + S (S (String.length ext)) - 1))
        with true by (symmetry; apply Nat.ltb_lt; lia).
      reflexivity.
Qed.

End BackendsThms.

Module ShifterConfigThms.
Import PyText PyTextFacts ShifterConfig ShifterConfigProofs.
Local Open Scope string_scope.

(** [_deprettify]: a line ending in a backslash is joined to the next
    line with its trailing backslashes removed, and a continuation line at
    the very end of the file is dropped. *)
Theorem deprettify_continuation (ls : list string) (l1 l2 : string) (rest : list string) :
  (ends_with_ch backslash l1 = true ->
   _deprettify (app ls (l1 :: l2 :: rest)) = _deprettify (app ls ((rstrip_by is_backslash l1 ++ l2) :: rest)))
  /\ (ends_with_ch backslash l1 = true -> _deprettify (app ls [l1]) = _deprettify ls).
Proof.
  split; intros H; unfold _deprettify.
  - apply deprettify_fuse; [exact H | reflexivity].
  - apply deprettify_drop, H.
Qed.

(** [_deprettify] never returns a line ending in a backslash, and returns
    lines none of which ends in a backslash unchanged. *)
Theorem deprettify_output (ls : list string) :
  (forall x, In x (_deprettify ls) -> ends_with_ch backslash x = false)
  /\ ((forall l, In l ls -> ends_with_ch backslash l = false) -> _deprettify ls = ls).
Proof. split; [apply deprettify_out | apply deprettify_id]. Qed.

(** [_directives_to_dict]: a directive is split at its first ['='] and both
    sides are stripped; the last directive of a key gives its value; a key
    no directive defines is absent; a warning is logged for each directive
    without ['='], in order. *)
Theorem directives_to_dict_spec (ds pre post : list string) (d k v key value : string) :
  (has_ch "=" key = false -> directive_entry (key ++ String "=" value) = Some (py_strip key, py_strip value))
  /\ (directive_entry d = Some (k, v) ->
      (forall d' v', In d' post -> directive_entry d' <> Some (k, v')) ->
      sget (_directives_to_dict (app pre (d :: post))) k = Some v)
  /\ ((forall d' v', In d' ds -> directive_entry d' <> Some (k, v')) -> sget (_directives_to_dict ds) k = None)
  /\ snd (directive_entries ds) = map unrecognized (filter (fun x => negb (has_ch "=" x)) ds).
Proof.
  split; [|split; [|split]].
  - intros H; unfold directive_entry; rewrite split1_ch_app by exact H; reflexivity.
  - intros Hd Hpost. unfold _directives_to_dict, dict_of.
    rewrite directive_entries_fst, flat_map_app; cbn [flat_map].
    unfold entry_list at 2; rewrite Hd; cbn [app].
    apply merge_last.
    intros [k' v'] Hin Hk; cbn [fst] in Hk; subst k'.
    apply entry_list_In in Hin as (d' & Hd' & He). exact (Hpost d' v' Hd' He).
  - intros H. unfold _directives_to_dict, dict_of.
    rewrite directive_entries_fst, merge_absent; [reflexivity|].
    intros [k' v'] Hin Hk; cbn [fst] in Hk; subst k'.
    apply entry_list_In in Hin as (d' & Hd' & He). exact (H d' v' Hd' He).
  - apply directive_entries_snd.
Qed.



(** [linker_path]: the [':']-separated parts of the collected directories,
    or the one empty string when no directory is collected. *)
Theorem linker_path_parts (config : list (string * string)) :
  linker_path config
  = option_map (fun ps => match ps with [] => [EmptyString] | _ => flat_map (split_ch ":") ps end)
               (linker_dirs config).
Proof. apply linker_path_split. Qed.

(** [linker_path] raises [IndexError] exactly when the prepend string of a
    module listed in [defaultModules] has a word starting with
    [LD_LIBRARY_PATH] that contains no ['=']. *)
Theorem linker_path_index_error (config : list (string * string)) :
  linker_path config = None
  <-> exists module prepend var,
        In module (split_ch "," (sget_default config "defaultModules" EmptyString))
        /\ sget config ("module_" ++ module ++ "_siteEnvPrepend") = Some prepend
        /\ In var (split_ws prepend)
        /\ String.prefix "LD_LIBRARY_PATH" var = true /\ has_ch "=" var = false.
Proof.
  unfold linker_path, linker_dirs.
  rewrite <- modules_dirs_none.
  destruct (modules_dirs config _); cbn; split; congruence.
Qed.

End ShifterConfigThms.

Module DictsProofs.
Import Paths Containers ListSpec BindSpec BindProofs PyTextFacts Dicts.
Local Open Scope string_scope.

Lemma path_eqb_sym (p q : path) : path_eqb p q = path_eqb q p.
Proof.
  destruct (path_eqb q p) eqn:E.
  - apply path_eqb_spec in E; subst; apply path_eqb_spec; reflexivity.
  - apply path_eqb_false in E; apply path_eqb_false; congruence.
Qed.

Lemma lookup_update (b : list (path * BoundFile)) (k k' : path) (v : BoundFile) :
  dict_lookup path_eqb (dict_update path_eqb b k v) k'
  = if path_eqb k k' then Some v else dict_lookup path_eqb b k'.
Proof.
  induction b as [|[k0 v0] b IH]; cbn.
  - destruct (path_eqb k k'); reflexivity.
  - destruct (path_eqb k0 k) eqn:E0; cbn.
    + apply path_eqb_spec in E0; subst k0. destruct (path_eqb k k'); reflexivity.
    + rewrite IH. destruct (path_eqb k k') eqn:E1; [|reflexivity].
      apply path_eqb_spec in E1; subst k'. rewrite E0; reflexivity.
Qed.

Lemma update_keys_list (b : list (path * BoundFile)) (k : path) (v : BoundFile) :
  map fst (dict_update path_eqb b k v)
  = if existsb (path_eqb k) (map fst b) then map fst b else app (map fst b) [k].
Proof.
  induction b as [|[k0 v0] b IH]; cbn; [reflexivity|].
  rewrite (path_eqb_sym k k0).
  destruct (path_eqb k0 k) eqn:E; cbn; [reflexivity|].
  rewrite IH; destruct (existsb (path_eqb k) (map fst b)); reflexivity.
Qed.

Lemma dotdot_prefixes_none (pre : path) (rest : list string) :
  ~ In ".." rest -> dotdot_prefixes pre rest = [].
Proof.
  revert pre; induction rest as [|part rest IH]; intros pre H; cbn; [reflexivity|].
  destruct (String.eqb part "..") eqn:E.
  - apply String.eqb_eq in E; subst; exfalso; apply H; left; reflexivity.
  - apply IH; intros H'; apply H; right; exact H'.
Qed.

Lemma unrelative_plain rl (cwd p : path) :
  resolve rl cwd p = Ok p -> ~ In ".." p -> _unrelative rl cwd p = Ok [p].
Proof.
  intros Hr Hn. unfold _unrelative. rewrite Hr; cbn [bind].
  rewrite (add_dotdot_prefixes_spec rl cwd p p 0 _ eq_refl); cbn [firstn].
  rewrite dotdot_prefixes_none by exact Hn. cbn [resolve_all fold_left bind].
  unfold set_add; cbn [existsb]. replace (path_eqb p p) with true
    by (symmetry; apply path_eqb_spec; reflexivity).
  cbn [orb filter existsb]. replace (path_eqb p p) with true
    by (symmetry; apply path_eqb_spec; reflexivity).
  reflexivity.
Qed.

End DictsProofs.

Module ContainersThms.
Import Paths Containers ListSpec BindProofs PyTextFacts Dicts DictsProofs.
Local Open Scope string_scope.

(** [bind_file]: an empty path string binds nothing; with a non-empty
    destination, the destination is bound to the path as given (not
    resolved) with the given option, every other destination keeps its
    binding, and a destination already bound keeps its place in the
    binding order. *)
Theorem bind_file_to_dest rl (cwd : path) (c : container) (p d : pathlike) (opt : Z) :
  (truthy p = false -> forall dest, bind_file rl cwd c p dest opt = Ok c)
  /\ (truthy p = true -> truthy d = true ->
      exists c', bind_file rl cwd c p (Some d) opt = Ok c'
      /\ (forall k, bound_get c' k
                    = if path_eqb (to_path d) k then Some (mk_bound_file (to_path p) opt) else bound_get c k)
      /\ map fst (bound_files c')
         = if existsb (path_eqb (to_path d)) (map fst (bound_files c)) then map fst (bound_files c)
           else app (map fst (bound_files c)) [to_path d]).
Proof.
  split.
  - intros Hp dest; unfold bind_file; rewrite Hp; reflexivity.
  - intros Hp Hd; unfold bind_file; rewrite Hp, Hd; cbn [negb].
    eexists; split; [reflexivity|]. unfold bound_get; cbn [bound_files set_bound_files].
    split; [intros k; apply lookup_update | apply update_keys_list].
Qed.

(** [bind_file] without a destination (or with an empty one), on a path
    with no [".."] part that resolves to itself (an absolute path with no
    symbolic link on it), binds that path to itself and nothing else. *)
Theorem bind_file_absolute_plain rl (cwd : path) (c : container) (a : pathlike) (opt : Z)
  (dest : option pathlike) :
  truthy a = true -> resolve rl cwd (to_path a) = Ok (to_path a) -> ~ In ".." (to_path a) ->
  match dest with Some d => truthy d = false | None => True end ->
  bind_file rl cwd c a dest opt
  = Ok (set_bound_files c
          (dict_update path_eqb (bound_files c) (to_path a) (mk_bound_file (to_path a) opt))).
Proof.
  intros Ht Hr Hn Hd. unfold bind_file; rewrite Ht; cbn [negb].
  destruct dest as [d|]; [rewrite Hd|]; rewrite (unrelative_plain rl cwd _ Hr Hn); reflexivity.
Qed.

Lemma bind_file_absolute_plain_witness :
  bind_file Samples.no_links ["/"; "home"] (init_container "img.sif") (PStr "/usr/lib/x.so") None READ_ONLY
  = Ok (set_bound_files (init_container "img.sif")
          [(["/"; "usr"; "lib"; "x.so"], mk_bound_file ["/"; "usr"; "lib"; "x.so"] READ_ONLY)]).
Proof.
  apply (bind_file_absolute_plain Samples.no_links ["/"; "home"] (init_container "img.sif")
           (PStr "/usr/lib/x.so") READ_ONLY None).
  - reflexivity.
  - vm_compute; reflexivity.
  - vm_compute. intros [H|[H|[H|[H|[]]]]]; discriminate H.
  - exact I.
Defined.

End ContainersThms.

Module ImportThms.
Import Paths Containers Shifter PyTextFacts.
Local Open Scope string_scope.

Lemma prefix_app_self (a b : string) : String.prefix a (a ++ b) = true.
Proof.
  induction a as [|x a IH]; cbn; [destruct b; reflexivity|].
  destruct (ascii_dec x x) as [_|n]; [exact IH | congruence].
Qed.

Lemma substring_shift (a b : string) (n m : nat) :
  substring (String.length a + n) m (a ++ b) = substring n m b.
Proof. induction a as [|x a IH]; cbn; [reflexivity | exact IH]. Qed.

Lemma substring_all (s : string) (m : nat) : (String.length s <= m)%nat -> substring 0 m s = s.
Proof.
  revert m; induction s as [|x s IH]; intros m H; cbn in *.
  - destruct m; reflexivity.
  - destruct m as [|m]; [lia|]. rewrite IH by lia; reflexivity.
Qed.

Lemma length_app_str (a b : string) : String.length (a ++ b) = (String.length a + String.length b)%nat.
Proof. induction a as [|x a IH]; cbn; [reflexivity | rewrite IH; reflexivity]. Qed.

(** [_setup_import] copies a file bound under [CONTAINER_DIR] to the
    staging directory [where], at the destination with [CONTAINER_DIR] and
    one more character cut off; the test is a string prefix test, so a
    destination such as [CONTAINER_DIR + "X/f"] leaves the absolute rest
    ["/f"], and the copy goes to [/f], outside [where]; a destination equal
    to [CONTAINER_DIR] is copied to [where] itself. No volume is added.
    When [os.makedirs] of the parent directory raises, the exception
    propagates and nothing is copied. *)
Theorem import_step_rebase (CD : string) (h : fs) (mk : path -> option exn) (w : path)
  (st : import_state) (s dst : path) (o : Z) :
  (forall ch rest, as_posix dst = CD ++ String ch rest ->
     (mk (path_join w rest) = None ->
        exists st', import_step CD h mk w st (BYield s dst o) = Ok st'
        /\ copies st' = app (copies st) [(s, path_join w rest)] /\ volumes st' = volumes st)
     /\ (forall e, mk (path_join w rest) = Some e -> import_step CD h mk w st (BYield s dst o) = Err e)
     /\ (String.prefix "/" rest = true -> path_join w rest = parse_path rest))
  /\ (as_posix dst = CD ->
       (mk w = None ->
          exists st', import_step CD h mk w st (BYield s dst o) = Ok st'
          /\ copies st' = app (copies st) [(s, w)] /\ volumes st' = volumes st)
       /\ (forall e, mk w = Some e -> import_step CD h mk w st (BYield s dst o) = Err e)).
Proof.
  split.
  - intros ch rest E. unfold import_step; cbv zeta. rewrite E, prefix_app_self, substring_shift.
    cbn [substring].
    rewrite substring_all by (rewrite length_app_str; cbn [String.length]; lia).
    split; [|split].
    + intros Hm; rewrite Hm. eexists; split; [reflexivity|]. split; reflexivity.
    + intros e Hm; rewrite Hm; reflexivity.
    + intros Hr. unfold path_join.
      assert (Ha : is_absolute (parse_path rest) = true).
      { unfold parse_path. destruct (String.prefix "//" rest && negb (String.prefix "///" rest));
          [reflexivity|].
        rewrite Hr; reflexivity. }
      rewrite Ha; reflexivity.
  - intros E. unfold import_step; cbv zeta. rewrite E.
    assert (P : String.prefix CD CD = true)
      by (pose proof (prefix_app_self CD EmptyString) as P; rewrite str_app_nil_r in P; exact P).
    assert (S : substring (String.length CD + 1) (String.length CD) CD = EmptyString)
      by (pose proof (substring_shift CD EmptyString 1 (String.length CD)) as Q;
          rewrite str_app_nil_r in Q; rewrite Q; reflexivity).
    assert (J : path_join w EmptyString = w).
    { unfold path_join. replace (parse_path EmptyString) with (@nil string) by reflexivity.
      cbn [is_absolute]. apply app_nil_r. }
    rewrite P, S, J. split.
    + intros Hm; rewrite Hm. eexists; split; [reflexivity|]. split; reflexivity.
    + intros e Hm; rewrite Hm; reflexivity.
Qed.

End ImportThms.

Module CompilerSections.
Import Compiler CompilerProofs.

Lemma is_prefix_sep (n x y : pystr) (s0 : Z) :
  (forall z, In z n -> z <> s0) -> is_prefix n (x ++ s0 :: y) = is_prefix n x.
Proof.
  revert x; induction n as [|z n IH]; intros x H; [destruct x; reflexivity|].
  destruct x as [|a x]; cbn [app is_prefix].
  - replace (Z.eqb z s0) with false by (symmetry; apply Z.eqb_neq, H; left; reflexivity).
    reflexivity.
  - rewrite IH by (intros z' Hz; apply H; right; exact Hz). reflexivity.
Qed.

Lemma contains_sep_head (n sep y : pystr) :
  n <> [] -> (forall z, In z n -> ~ In z sep) -> contains n (sep ++ y) = contains n y.
Proof.
  intros Hn H; induction sep as [|s sep IH]; [reflexivity|].
  cbn [app]. destruct n as [|z n]; [congruence|].
  assert (E : is_prefix (z :: n) (s :: sep ++ y) = false).
  { cbn [is_prefix]. replace (Z.eqb z s) with false; [reflexivity|].
    symmetry; apply Z.eqb_neq; intros ->; apply (H s (or_introl eq_refl)); left; reflexivity. }
  change (contains (z :: n) (s :: sep ++ y))
    with (is_prefix (z :: n) (s :: sep ++ y) || contains (z :: n) (sep ++ y)).
  rewrite E; cbn [orb]. apply IH.
  intros z' Hz Hs; apply (H z' Hz); right; exact Hs.
Qed.

Lemma contains_app_sep (n sep x y : pystr) :
  n <> [] -> sep <> [] -> (forall z, In z n -> ~ In z sep) ->
  contains n (x ++ sep ++ y) = contains n x || contains n y.
Proof.
  intros Hn Hsep H. induction x as [|a x IH].
  - cbn [app]. rewrite contains_sep_head by assumption.
    destruct n; [congruence | reflexivity].
  - cbn [app].
    change (contains n (a :: x ++ sep ++ y)) with (is_prefix n (a :: x ++ sep ++ y) || contains n (x ++ sep ++ y)).
    change (contains n (a :: x)) with (is_prefix n (a :: x) || contains n x).
    destruct sep as [|s0 sep']; [congruence|].
    pose proof (is_prefix_sep n (a :: x) (sep' ++ y) s0) as E; cbn [app] in E, IH |- *.
    rewrite E by (intros z Hz ->; apply (H s0 Hz); left; reflexivity).
    rewrite IH, orb_assoc; reflexivity.
Qed.

Lemma contains_join (n sep : pystr) (ds : list pystr) :
  n <> [] -> sep <> [] -> (forall z, In z n -> ~ In z sep) ->
  contains n (join sep ds) = existsb (contains n) ds.
Proof.
  intros Hn Hsep H. induction ds as [|x ds IH].
  - destruct n; [congruence | reflexivity].
  - destruct ds as [|y ds].
    + cbn [join existsb]; rewrite orb_false_r; reflexivity.
    + change (join sep (x :: y :: ds)) with (x ++ sep ++ join sep (y :: ds)).
      rewrite contains_app_sep, IH by assumption; reflexivity.
Qed.

Ltac sep_free := intros z Hz Hs; cbn in Hz, Hs; intuition (subst; discriminate).

(** [compiler_vendor] checks the text of the [.comment] sections joined
    with [" - "], and a check never matches across two sections: the
    vendor is AMD when a section contains "AMD", else LLVM when a section
    contains "clang", else GNU (no section at all included). *)
Theorem compiler_vendor_sections (st : section_stream) (ds : list pystr) :
  comment_parts st = Ok ds ->
  compiler_vendor (Opened st)
  = Ok (if existsb (contains (lit "AMD")) ds then AMD
        else if existsb (contains (lit "clang")) ds then LLVM
        else GNU).
Proof.
  intros H. unfold compiler_vendor, _get_comment, read_comment, bind. rewrite H.
  rewrite first_vendor_precendence.
  rewrite !contains_join by (discriminate || sep_free).
  destruct (existsb (contains (lit "AMD")) ds), (existsb (contains (lit "clang")) ds),
    (existsb (contains (lit "GCC")) ds); reflexivity.
Qed.

Lemma compiler_vendor_sections_witness :
  comment_parts (SCons (mk_section ".comment" (lit "GCC: (GNU) 12.2"))
                  (SCons (mk_section ".note" (lit "AMD"))
                    (SCons (mk_section ".comment" (lit "clang version 15")) SEnd)))
    = Ok [lit "GCC: (GNU) 12.2"; lit "clang version 15"]
  /\ compiler_vendor (Opened (SCons (mk_section ".comment" (lit "GCC: (GNU) 12.2"))
                  (SCons (mk_section ".note" (lit "AMD"))
                    (SCons (mk_section ".comment" (lit "clang version 15")) SEnd))))
     = Ok LLVM.
Proof.
  split; [vm_compute; reflexivity|].
  rewrite (compiler_vendor_sections _ [lit "GCC: (GNU) 12.2"; lit "clang version 15"])
    by (vm_compute; reflexivity).
  vm_compute; reflexivity.
Defined.

End CompilerSections.
